(** * CameraZoomPlugin: a shallow embedding of src/CameraZoomPlugin.cc

    The plugin maps a zoom-factor command to a camera field of view,
    optionally rate limited in focal length.  This development embeds
    the optics helpers, the command latch, the camera acquisition, the
    teardown handler and the per-step [PreUpdate] and states the
    properties of the specification over that embedding.

    Modelling conventions.

    - A C++ [double] is an ideal real number ([R]): rounding and
      signed zeros are outside the model, and the published field of
      view is computed without rounding error.  The one member that is
      infinite by default, [slewRate], has the type [xdouble], whose
      second constructor stands for every value on which
      [std::isfinite] is false.
    - A zoom command reaches the plugin unchecked and may be NaN.
      The plugin state holds the command as a real; what lines 417-426
      do with a command that is NaN is given separately, over
      [rawDouble], by [resolveGoalRaw], which agrees with [resolveGoal]
      on every command that is a number.
    - [std::tan] is [tan]; [std::atan2] is the two-argument arctangent
      [atan2] below, written from its mathematical definition.
    - [_info.dt] is a [std::chrono::steady_clock::duration]: an integer
      number of nanoseconds ([Z]); [duration<double>(dt).count()] is
      that number divided by 1e9.
    - The entity-component manager is reduced to what [PreUpdate]
      reads and writes: the [components::Camera] of the sensor entity.
      Calls on collaborators that leave no trace in that state
      ([SetChanged], [SetHFOV], [gzwarn], [gzerr] and the [gzdbg] of
      the teardown) are recorded, in program order, in the list of
      [effect]s that each operation returns; the [gzdbg] lines of a
      successful [Configure] and of [PostUpdate] are not recorded. *)

From Stdlib Require Import Reals Lra Lia ZArith List String Bool.
Import ListNotations.

Open Scope R_scope.

(** ** Numeric primitives of <cmath>, <algorithm> and <limits> *)

Module Std.

(** [std::numeric_limits<double>::epsilon()], 2^-52. *)
Definition epsilon : R := / 2 ^ 52.

(** [std::abs] on doubles. *)
Definition abs (x : R) : R := Rabs x.

(** [std::min(a, b)]: [(b < a) ? b : a]. *)
Definition min (a b : R) : R := if Rlt_dec b a then b else a.

(** [std::clamp(v, lo, hi)]: [(v < lo) ? lo : (hi < v) ? hi : v]. *)
Definition clamp (v lo hi : R) : R :=
  if Rlt_dec v lo then lo else if Rlt_dec hi v then hi else v.

(** [std::atan2(y, x)]: the angle of the point (x, y), in (-PI, PI]. *)
Definition atan2 (y x : R) : R :=
  if Rlt_dec 0 x then atan (y / x)
  else if Rlt_dec x 0 then
         (if Rle_dec 0 y then atan (y / x) + PI else atan (y / x) - PI)
  else if Rlt_dec 0 y then PI / 2
  else if Rlt_dec y 0 then - (PI / 2)
  else 0.

(** A double that may fail [std::isfinite] (infinities and NaN). *)
Inductive xdouble : Type :=
| Finite (r : R)
| NonFinite.

Definition isfinite (x : xdouble) : bool :=
  match x with Finite _ => true | NonFinite => false end.

(** [std::numeric_limits<double>::infinity()]. *)
Definition infinity : xdouble := NonFinite.

End Std.

Import Std.

(** ** Collaborators *)

(** [sdf::Camera]: the two attributes the plugin touches. *)
Record SdfCamera : Type := mkSdfCamera {
  HorizontalFov : R;
  LensFocalLength : R
}.

(** [sdf::Camera::SetHorizontalFov]. *)
Definition SetHorizontalFov (c : SdfCamera) (hfov : R) : SdfCamera :=
  {| HorizontalFov := hfov; LensFocalLength := LensFocalLength c |}.

(** [sdf::Sensor]: [CameraSensor()] is null for a non-camera sensor. *)
Record SdfSensor : Type := mkSdfSensor {
  CameraSensor : option SdfCamera
}.

(** The entity-component manager seen from the sensor entity:
    [_ecm.Component<components::Camera>(cameraEntity)], null when the
    entity has no such component. *)
Record EntityComponentManager : Type := mkEcm {
  CameraComponent : option SdfSensor
}.

Definition ScenePtr : Type := nat.
Definition CameraPtr : Type := nat.

(** A rendering sensor returned by [Scene::SensorByName]; the dynamic
    cast to [rendering::Camera] succeeds on [RenderCamera] only. *)
Inductive RenderSensor : Type :=
| RenderCamera (c : CameraPtr)
| RenderOther.

Definition dynamic_pointer_cast_Camera (s : RenderSensor) : option CameraPtr :=
  match s with RenderCamera c => Some c | RenderOther => None end.

(** What a scene pointer gives access to at the time of a call. *)
Record Scene : Type := mkScene {
  IsInitialized : bool;
  SensorCount : nat;
  SensorByName : string -> option RenderSensor
}.

(** The state of the rendering library at the time of a call. *)
Record Rendering : Type := mkRendering {
  loadedEngines_empty : bool;
  sceneFromFirstRenderEngine : option ScenePtr;
  deref : ScenePtr -> Scene
}.

(** [UpdateInfo]: the step duration in nanoseconds. *)
Record UpdateInfo : Type := mkUpdateInfo {
  dt : Z
}.

(** [std::chrono::duration<double>(dt).count()]: seconds. *)
Definition seconds (d : Z) : R := IZR d / 1000000000.

(** Calls whose only trace is outside the modelled state. *)
Inductive effect : Type :=
| FovWritten (hfov : R)            (* cameraSdf->SetHorizontalFov *)
| SetChanged                       (* _ecm.SetChanged(.., OneTimeChange) *)
| SetHFOV (c : CameraPtr) (hfov : R) (* rendering camera ->SetHFOV *)
| WarnClamped (requested clamped : R)
| WarnNoScene
| ErrSensorNotFound (name : string)
| ErrNotACamera (name : string)
| ErrConfigure (msg : string)
| DbgDisabled.

(** ** The private implementation class *)

Record Impl : Type := mkImpl {
  cameraName : string;
  zoomChanged : bool;
  zoomCommand : R;
  refHfov : R;
  goalHfov : R;
  curZoom : R;
  maxZoom : R;
  slewRate : xdouble;
  isValidConfig : bool;
  scene : option ScenePtr;
  camera : option CameraPtr
}.

(** [Impl::minZoom]. *)
Definition minZoom : R := 1.

(** The default member initialisers. *)
Definition Impl_default : Impl :=
  {| cameraName := EmptyString;
     zoomChanged := false;
     zoomCommand := 1;
     refHfov := 2;
     goalHfov := 2;
     curZoom := 1;
     maxZoom := 10;
     slewRate := infinity;
     isValidConfig := false;
     scene := None;
     camera := None |}.

Definition set_cameraName (v : string) (i : Impl) : Impl :=
  mkImpl v (zoomChanged i) (zoomCommand i) (refHfov i) (goalHfov i)
         (curZoom i) (maxZoom i) (slewRate i) (isValidConfig i)
         (scene i) (camera i).

Definition set_zoomChanged (v : bool) (i : Impl) : Impl :=
  mkImpl (cameraName i) v (zoomCommand i) (refHfov i) (goalHfov i)
         (curZoom i) (maxZoom i) (slewRate i) (isValidConfig i)
         (scene i) (camera i).

Definition set_zoomCommand (v : R) (i : Impl) : Impl :=
  mkImpl (cameraName i) (zoomChanged i) v (refHfov i) (goalHfov i)
         (curZoom i) (maxZoom i) (slewRate i) (isValidConfig i)
         (scene i) (camera i).

Definition set_goalHfov (v : R) (i : Impl) : Impl :=
  mkImpl (cameraName i) (zoomChanged i) (zoomCommand i) (refHfov i) v
         (curZoom i) (maxZoom i) (slewRate i) (isValidConfig i)
         (scene i) (camera i).

Definition set_maxZoom (v : R) (i : Impl) : Impl :=
  mkImpl (cameraName i) (zoomChanged i) (zoomCommand i) (refHfov i)
         (goalHfov i) (curZoom i) v (slewRate i) (isValidConfig i)
         (scene i) (camera i).

Definition set_slewRate (v : xdouble) (i : Impl) : Impl :=
  mkImpl (cameraName i) (zoomChanged i) (zoomCommand i) (refHfov i)
         (goalHfov i) (curZoom i) (maxZoom i) v (isValidConfig i)
         (scene i) (camera i).

Definition set_isValidConfig (v : bool) (i : Impl) : Impl :=
  mkImpl (cameraName i) (zoomChanged i) (zoomCommand i) (refHfov i)
         (goalHfov i) (curZoom i) (maxZoom i) (slewRate i) v
         (scene i) (camera i).

Definition set_scene (v : option ScenePtr) (i : Impl) : Impl :=
  mkImpl (cameraName i) (zoomChanged i) (zoomCommand i) (refHfov i)
         (goalHfov i) (curZoom i) (maxZoom i) (slewRate i)
         (isValidConfig i) v (camera i).

Definition set_camera (v : option CameraPtr) (i : Impl) : Impl :=
  mkImpl (cameraName i) (zoomChanged i) (zoomCommand i) (refHfov i)
         (goalHfov i) (curZoom i) (maxZoom i) (slewRate i)
         (isValidConfig i) (scene i) v.

(** [Impl::OnZoom]: store the command, then raise the flag. *)
Definition OnZoom (msg : R) (i : Impl) : Impl :=
  set_zoomChanged true (set_zoomCommand msg i).

(** [Impl::InitialiseCamera]. *)
Definition InitialiseCamera (r : Rendering) (i : Impl) : Impl * list effect :=
  if loadedEngines_empty r then (i, [])
  else
    let i1 := match scene i with
              | None => set_scene (sceneFromFirstRenderEngine r) i
              | Some _ => i
              end in
    match scene i1 with
    | None => (i1, [WarnNoScene])
    | Some sp =>
        if negb (IsInitialized (deref r sp))
           || Nat.eqb (SensorCount (deref r sp)) 0
        then (i1, [WarnNoScene])
        else
          match camera i1 with
          | Some _ => (i1, [])
          | None =>
              match SensorByName (deref r sp) (cameraName i1) with
              | None => (i1, [ErrSensorNotFound (cameraName i1)])
              | Some sensor =>
                  let i2 := set_camera (dynamic_pointer_cast_Camera sensor) i1 in
                  match camera i2 with
                  | None => (i2, [ErrNotACamera (cameraName i2)])
                  | Some _ => (i2, [])
                  end
              end
          end
    end.

(** [Impl::OnRenderTeardown]. *)
Definition OnRenderTeardown (i : Impl) : Impl * list effect :=
  (set_isValidConfig false (set_scene None (set_camera None i)),
   [DbgDisabled]).

(** ** Optics *)

(** [Impl::FocalLengthToFov]. *)
Definition FocalLengthToFov (sensorWidth focalLength : R) : R :=
  2 * atan2 sensorWidth (2 * focalLength).

(** [Impl::FovToFocalLength]. *)
Definition FovToFocalLength (sensorWidth fov : R) : R :=
  sensorWidth / (2 * tan (fov / 2)).

(** [Impl::SensorWidth]. *)
Definition SensorWidth (focalLength fov : R) : R :=
  2 * tan (fov / 2) * focalLength.

(** ** Configuration *)

(** What [Configure] obtains from the entity-component manager and
    from the plugin's SDF element. *)
Record ConfigureInput : Type := mkConfigureInput {
  SensorValid : bool;
  SensorName : option string;
  parentModelValid : bool;
  worldValid : bool;
  sdf_max_zoom : option R;
  sdf_slew_rate : option xdouble
}.

(** [CameraZoomPlugin::Configure].  The topic selection and the
    subscription have no trace in the modelled state. *)
Definition Configure (c : ConfigureInput) (i : Impl) : Impl * list effect :=
  if negb (SensorValid c) then
    (i, [ErrConfigure
           "CameraZoomPlugin must be attached to a camera sensor. Failed to initialize."])
  else
    match SensorName c with
    | None => (i, [ErrConfigure "Camera sensor has invalid name."])
    | Some _ =>
        if negb (parentModelValid c) then
          (i, [ErrConfigure
                 "CameraZoomPlugin - parent model not found. Failed to initialize."])
        else if negb (worldValid c) then
          (i, [ErrConfigure
                 "CameraZoomPlugin - world not found. Failed to initialize."])
        else
          let i1 := match sdf_max_zoom c with
                    | Some v => set_maxZoom v i
                    | None => i
                    end in
          let i2 := match sdf_slew_rate c with
                    | Some v => set_slewRate v i1
                    | None => i1
                    end in
          (set_isValidConfig true i2, [])
    end.

(** [CameraZoomPlugin::PostUpdate]: the scoped name of the sensor
    entity is recorded once. *)
Definition PostUpdate (scopedName : string) (i : Impl) : Impl :=
  if negb (String.eqb (cameraName i) EmptyString) then i
  else set_cameraName scopedName i.

(** ** The per-step update *)

(** Lines 414-428: the goal is recomputed when, and only when, the
    command flag is raised; the flag is lowered afterwards. *)
Definition resolveGoal (i : Impl) : Impl * list effect :=
  if zoomChanged i then
    let requestedZoomCmd := zoomCommand i in
    let clampedZoomCmd := clamp requestedZoomCmd minZoom (maxZoom i) in
    let log :=
      if Rgt_dec (abs (requestedZoomCmd - clampedZoomCmd)) epsilon
      then [WarnClamped requestedZoomCmd clampedZoomCmd]
      else [] in
    (set_zoomChanged false (set_goalHfov (refHfov i / clampedZoomCmd) i), log)
  else (i, []).

(** Lines 451-473: the focal length after the step. *)
Definition slewFocalLength
  (rate : xdouble) (d : Z) (curFocalLength goalFocalLength : R) : R :=
  match rate with
  | Finite r =>
      let maxFocalLengthChange := r * seconds d in
      let deltaFL :=
        min maxFocalLengthChange (abs (curFocalLength - goalFocalLength)) in
      if Rgt_dec goalFocalLength curFocalLength
      then curFocalLength + deltaFL
      else curFocalLength - deltaFL
  | NonFinite => goalFocalLength
  end.

(** The local values of a step that reaches line 443, as functions of
    the goal and of the camera read at the start of the step. *)
Section Locals.
Variables (rate : xdouble) (d : Z) (goal : R) (c : SdfCamera).

Definition oldHfov : R := HorizontalFov c.
Definition curFocalLength : R := LensFocalLength c.
Definition sensorWidth : R := SensorWidth curFocalLength oldHfov.
Definition goalFocalLength : R := FovToFocalLength sensorWidth goal.
Definition newFocalLength : R :=
  slewFocalLength rate d curFocalLength goalFocalLength.
Definition newHfov : R := FocalLengthToFov sensorWidth newFocalLength.
End Locals.

(** The early exit of lines 439-441. *)
Definition goalAchieved (goal : R) (c : SdfCamera) : bool :=
  if Rlt_dec (abs (goal - oldHfov c)) epsilon then true else false.

(** [CameraZoomPlugin::PreUpdate]. *)
Definition PreUpdate (info : UpdateInfo) (r : Rendering)
  (i : Impl) (ecm : EntityComponentManager)
  : Impl * EntityComponentManager * list effect :=
  if negb (isValidConfig i) then (i, ecm, [])
  else
    match camera i with
    | None =>
        let '(i', log) := InitialiseCamera r i in (i', ecm, log)
    | Some cam =>
        match CameraComponent ecm with
        | None => (i, ecm, [])
        | Some sensor =>
            let '(i1, log1) := resolveGoal i in
            match CameraSensor sensor with
            | None => (i1, ecm, log1)
            | Some cameraSdf =>
                if goalAchieved (goalHfov i1) cameraSdf then (i1, ecm, log1)
                else
                  let hfov :=
                    newHfov (slewRate i1) (dt info) (goalHfov i1) cameraSdf in
                  (i1,
                   mkEcm (Some (mkSdfSensor
                                  (Some (SetHorizontalFov cameraSdf hfov)))),
                   log1 ++ [FovWritten hfov; SetChanged; SetHFOV cam hfov])
            end
        end
    end.

(** ** Runs *)

(** What can happen to a plugin instance after construction. *)
Inductive event : Type :=
| EvConfigure (c : ConfigureInput)
| EvPreUpdate (info : UpdateInfo) (r : Rendering)
| EvPostUpdate (scopedName : string)
| EvZoom (msg : R)
| EvRenderTeardown.

Definition system : Type := (Impl * EntityComponentManager)%type.

Definition step (e : event) (s : system) : system * list effect :=
  let '(i, ecm) := s in
  match e with
  | EvConfigure c => let '(i', log) := Configure c i in ((i', ecm), log)
  | EvPreUpdate info r =>
      let '(i', ecm', log) := PreUpdate info r i ecm in ((i', ecm'), log)
  | EvPostUpdate n => ((PostUpdate n i, ecm), [])
  | EvZoom z => ((OnZoom z i, ecm), [])
  | EvRenderTeardown =>
      let '(i', log) := OnRenderTeardown i in ((i', ecm), log)
  end.

Fixpoint run (es : list event) (s : system) : system * list effect :=
  match es with
  | [] => (s, [])
  | e :: es' =>
      let '(s1, log1) := step e s in
      let '(s2, log2) := run es' s1 in
      (s2, log1 ++ log2)
  end.

(** The camera attributes held by the entity-component manager. *)
Definition cameraOf (ecm : EntityComponentManager) : option SdfCamera :=
  match CameraComponent ecm with
  | Some sensor => CameraSensor sensor
  | None => None
  end.

Definition isFovSignal (e : effect) : bool :=
  match e with
  | FovWritten _ | SetChanged | SetHFOV _ _ => true
  | _ => false
  end.

Definition isSetChanged (e : effect) : bool :=
  match e with SetChanged => true | _ => false end.

Definition isWarnClamped (e : effect) : bool :=
  match e with WarnClamped _ _ => true | _ => false end.

(** The number of [SetChanged] calls recorded in a log. *)
Definition changedCount (log : list effect) : nat :=
  List.length (filter isSetChanged log).

(** The step of a plugin that holds a rendering camera and finds the
    camera attributes in the entity-component manager. *)
Definition activeStep (info : UpdateInfo) (cam : CameraPtr)
  (i : Impl) (ecm : EntityComponentManager) (c : SdfCamera)
  : Impl * EntityComponentManager * list effect :=
  let i1 := fst (resolveGoal i) in
  let log1 := snd (resolveGoal i) in
  if goalAchieved (goalHfov i1) c then (i1, ecm, log1)
  else
    let hfov := newHfov (slewRate i1) (dt info) (goalHfov i1) c in
    (i1,
     mkEcm (Some (mkSdfSensor (Some (SetHorizontalFov c hfov)))),
     log1 ++ [FovWritten hfov; SetChanged; SetHFOV cam hfov]).

(** The camera attributes after a step of a plugin that holds a
    rendering camera and has no pending command. *)
Definition tickCamera (rate : xdouble) (d : Z) (goal : R) (c : SdfCamera)
  : SdfCamera :=
  if goalAchieved goal c then c
  else SetHorizontalFov c (newHfov rate d goal c).

Fixpoint iterCamera (n : nat) (rate : xdouble) (d : Z) (goal : R)
  (c : SdfCamera) : SdfCamera :=
  match n with
  | O => c
  | S k => iterCamera k rate d goal (tickCamera rate d goal c)
  end.

(** [n] consecutive steps with the same step duration. *)
Definition ticks (n : nat) (info : UpdateInfo) (r : Rendering) : list event :=
  repeat (EvPreUpdate info r) n.

Definition cameraAfter (es : list event) (s : system) : option SdfCamera :=
  cameraOf (snd (fst (run es s))).

Definition implAfter (es : list event) (s : system) : Impl :=
  fst (fst (run es s)).

Definition logOf (es : list event) (s : system) : list effect :=
  snd (run es s).

Definition isZoom (e : event) : bool :=
  match e with EvZoom _ => true | _ => false end.

Definition isConfigure (e : event) : bool :=
  match e with EvConfigure _ => true | _ => false end.

(** The entity-component manager that holds the camera [c]. *)
Definition ecmOf (c : SdfCamera) : EntityComponentManager :=
  mkEcm (Some (mkSdfSensor (Some c))).

(** A pointer, or an optional value, that is set. *)
Definition notNull {A : Type} (p : option A) : bool :=
  match p with Some _ => true | None => false end.

(** A step recomputes the goal when it gets past the three guards of
    lines 397-412 with the command flag raised. *)
Definition commandDetected (i : Impl) (ecm : EntityComponentManager) : bool :=
  isValidConfig i
  && notNull (camera i)
  && notNull (CameraComponent ecm)
  && zoomChanged i.

(** A step reaches the publishing code of lines 475-483 when it gets
    past every guard, the early exit of lines 439-441 included. *)
Definition reachesPublish (i : Impl) (ecm : EntityComponentManager) : bool :=
  isValidConfig i
  && notNull (camera i)
  && match cameraOf ecm with
     | Some c => negb (goalAchieved (goalHfov (fst (resolveGoal i))) c)
     | None => false
     end.

(** No command is pending and the goal is the reference field of
    view: the state of the latch and of the goal at construction. *)
Definition uncommanded (i : Impl) : Prop :=
  zoomChanged i = false /\ goalHfov i = refHfov i.

(** The plugin is marked as not configured and holds no rendering
    camera: the state [OnRenderTeardown] leaves behind. *)
Definition disabled (i : Impl) : Prop :=
  isValidConfig i = false /\ camera i = None.

(** A sequence of steps, each with its own duration and renderer. *)
Definition preUpdates (ts : list (UpdateInfo * Rendering)) : list event :=
  map (fun t => EvPreUpdate (fst t) (snd t)) ts.

(** ** A concrete installation

    A camera sensor named "camera" whose rendering counterpart is the
    camera 7 of scene 0; the plugin is configured, learns the name of
    its sensor and acquires the rendering camera on its first step. *)

Definition exampleConfigure (rate : option xdouble) : ConfigureInput :=
  {| SensorValid := true;
     SensorName := Some "camera"%string;
     parentModelValid := true;
     worldValid := true;
     sdf_max_zoom := None;
     sdf_slew_rate := rate |}.

Definition exampleRendering : Rendering :=
  {| loadedEngines_empty := false;
     sceneFromFirstRenderEngine := Some 0%nat;
     deref := fun _ =>
       {| IsInitialized := true;
          SensorCount := 1%nat;
          SensorByName := fun n =>
            if String.eqb n "camera" then Some (RenderCamera 7%nat)
            else None |} |}.

(** One millisecond. *)
Definition exampleInfo : UpdateInfo := mkUpdateInfo 1000000.

Definition startup (rate : option xdouble) : list event :=
  [EvConfigure (exampleConfigure rate);
   EvPostUpdate "camera";
   EvPreUpdate exampleInfo exampleRendering].

(** The plugin after [startup], next to a camera [c]. *)
Definition exampleImpl (rate : option xdouble) (c : SdfCamera) : Impl :=
  implAfter (startup rate) (Impl_default, ecmOf c).

(** The camera of the installation: 2.0 rad wide behind a lens of
    focal length 1 m. *)
Definition exampleCamera : SdfCamera := mkSdfCamera 2 1.

(** The same lens behind a field of view of 1.0 rad. *)
Definition narrowCamera : SdfCamera := mkSdfCamera 1 1.

(** The plugin after [startup], with the command [z] pending. *)
Definition commandedImpl (rate : option xdouble) (z : R) : Impl :=
  OnZoom z (exampleImpl rate exampleCamera).

(** The plugin after it has handled the command [z]. *)
Definition steadyImpl (rate : option xdouble) (z : R) : Impl :=
  fst (resolveGoal (commandedImpl rate z)).

(** The configured plugin that knows the name of its sensor, has a
    command pending and has not taken a step yet. *)
Definition configuredImpl : Impl :=
  OnZoom 2 (PostUpdate "camera"
              (fst (Configure (exampleConfigure None) Impl_default))).

Definition halfSecond : UpdateInfo := mkUpdateInfo 500000000.

Definition zeroDuration : UpdateInfo := mkUpdateInfo 0.

(** ** Vocabulary of the further properties *)

(** The scene [InitialiseCamera] works with: the one the plugin holds,
    else the scene of the first render engine. *)
Definition sceneInUse (r : Rendering) (i : Impl) : option ScenePtr :=
  match scene i with
  | Some sp => Some sp
  | None => sceneFromFirstRenderEngine r
  end.

(** The scene is there, initialised, and has at least one sensor. *)
Definition sceneReady (r : Rendering) (i : Impl) : bool :=
  match sceneInUse r i with
  | Some sp =>
      IsInitialized (deref r sp) && negb (Nat.eqb (SensorCount (deref r sp)) 0)
  | None => false
  end.

(** What the scene in use answers for the name of the plugin's camera. *)
Definition sensorLookup (r : Rendering) (i : Impl) : option RenderSensor :=
  match sceneInUse r i with
  | Some sp => SensorByName (deref r sp) (cameraName i)
  | None => None
  end.

(** The four lookups of [Configure] all succeed. *)
Definition lookupsSucceed (c : ConfigureInput) : bool :=
  SensorValid c && notNull (SensorName c)
  && parentModelValid c && worldValid c.

(** An event other than a [Configure] whose lookups succeed. *)
Definition notConfigured (e : event) : bool :=
  match e with
  | EvConfigure c => negb (lookupsSucceed c)
  | _ => true
  end.

Definition isTeardown (e : event) : bool :=
  match e with EvRenderTeardown => true | _ => false end.

(** A [Configure] that leaves the maximum zoom at 1 or more. *)
Definition maxZoomAtLeastOne (e : event) : Prop :=
  match e with
  | EvConfigure c =>
      match sdf_max_zoom c with Some v => 1 <= v | None => True end
  | _ => True
  end.

(** The last command of a burst, [z] when the burst is empty. *)
Definition lastCommand (zs : list R) (z : R) : R := last zs z.

(** A renderer whose engine is loaded and whose scene still is not
    initialised. *)
Definition pendingRendering : Rendering :=
  {| loadedEngines_empty := false;
     sceneFromFirstRenderEngine := Some 0%nat;
     deref := fun _ =>
       {| IsInitialized := false;
          SensorCount := 0%nat;
          SensorByName := fun _ => None |} |}.

(** The reference is 2.0 rad, the maximum zoom at least 1 and the goal
    in (0, 2]. *)
Definition goalValid (i : Impl) : Prop :=
  refHfov i = 2 /\ 1 <= maxZoom i /\ 0 < goalHfov i <= 2.

(** A slew rate that is infinite, or finite and not negative. *)
Definition rateNotNegative (x : xdouble) : Prop :=
  match x with Finite r => 0 <= r | NonFinite => True end.

(** An event within the intended range of the plugin: a [Configure]
    with a maximum zoom of 1 or more and a slew rate that is not
    negative, or a step whose duration is not negative. *)
Definition wellBehaved (e : event) : Prop :=
  match e with
  | EvConfigure c =>
      match sdf_max_zoom c with Some v => 1 <= v | None => True end
      /\ match sdf_slew_rate c with
         | Some x => rateNotNegative x
         | None => True
         end
  | EvPreUpdate info _ => (0 <= dt info)%Z
  | _ => True
  end.

(** A lens on which the optics conversions are defined. *)
Definition lensValid (c : SdfCamera) : Prop :=
  0 < LensFocalLength c /\ 0 < HorizontalFov c < PI.

(** ** A command that is not a number

    [msgs::Double::data()] is a [double] and [OnZoom] stores it as it
    comes: it may be infinite or NaN.  Every comparison with NaN is
    false and the arithmetic propagates it, so neither test of
    [std::clamp] fires and the warning test fails.  [resolveGoalRaw]
    is lines 417-426 on such a command; the arithmetic on numbers is
    that of the reals, as everywhere else. *)

Inductive rawDouble : Type :=
| Number (r : R)
| PosInf
| NegInf
| NaN.

(** [a < b] on doubles: false when either side is NaN. *)
Definition raw_lt (a b : rawDouble) : bool :=
  match a with
  | Number x =>
      match b with
      | Number y => if Rlt_dec x y then true else false
      | PosInf => true
      | NegInf => false
      | NaN => false
      end
  | PosInf => false
  | NegInf =>
      match b with
      | Number _ => true
      | PosInf => true
      | NegInf => false
      | NaN => false
      end
  | NaN => false
  end.

(** [a - b]: infinities of the same sign cancel to NaN. *)
Definition raw_sub (a b : rawDouble) : rawDouble :=
  match a with
  | Number x =>
      match b with
      | Number y => Number (x - y)
      | PosInf => NegInf
      | NegInf => PosInf
      | NaN => NaN
      end
  | PosInf =>
      match b with
      | Number _ => PosInf
      | PosInf => NaN
      | NegInf => PosInf
      | NaN => NaN
      end
  | NegInf =>
      match b with
      | Number _ => NegInf
      | PosInf => NegInf
      | NegInf => NaN
      | NaN => NaN
      end
  | NaN => NaN
  end.

Definition raw_abs (a : rawDouble) : rawDouble :=
  match a with
  | Number x => Number (abs x)
  | PosInf => PosInf
  | NegInf => PosInf
  | NaN => NaN
  end.

(** [x / b] for a number [x]; a divisor of lines 417-426 is a clamped
    command, which is at least 1 when it is a number and the maximum
    zoom is at least 1. *)
Definition raw_div (x : R) (b : rawDouble) : rawDouble :=
  match b with
  | Number y => Number (x / y)
  | PosInf => Number 0
  | NegInf => Number 0
  | NaN => NaN
  end.

(** [std::clamp(v, lo, hi)]: [(v < lo) ? lo : (hi < v) ? hi : v]. *)
Definition raw_clamp (v lo hi : rawDouble) : rawDouble :=
  if raw_lt v lo then lo else if raw_lt hi v then hi else v.

(** What lines 417-426 compute: the clamped command, the two values
    named by the warning when it is logged, and the goal. *)
Record RawResolution : Type := mkRawResolution {
  rawClamped : rawDouble;
  rawWarning : option (rawDouble * rawDouble);
  rawGoal : rawDouble
}.

Definition resolveGoalRaw (i : Impl) (requestedZoomCmd : rawDouble)
  : RawResolution :=
  let clampedZoomCmd :=
    raw_clamp requestedZoomCmd (Number minZoom) (Number (maxZoom i)) in
  mkRawResolution
    clampedZoomCmd
    (if raw_lt (Number epsilon)
          (raw_abs (raw_sub requestedZoomCmd clampedZoomCmd))
     then Some (requestedZoomCmd, clampedZoomCmd)
     else None)
    (raw_div (refHfov i) clampedZoomCmd).


(** ** A rate-limited zoom over two steps

    A camera 2 PI / 3 wide behind a lens of focal length 1 m, a slew
    rate of sqrt 3 - 1 metres per second, steps of one second and the
    command 6 / PI, whose goal is PI / 3. *)

Definition wideCamera : SdfCamera := mkSdfCamera (2 * PI / 3) 1.

Definition oneSecond : UpdateInfo := mkUpdateInfo 1000000000.

Definition slowRate : xdouble := Finite (sqrt 3 - 1).

Definition wideImpl : Impl :=
  OnZoom (6 / PI) (exampleImpl (Some slowRate) wideCamera).

Definition wideStart : system := (wideImpl, ecmOf wideCamera).

(** The focal length at which a sensor of width [w] shows the field of
    view of the camera [c]. *)
Definition focalLengthShown (w : R) (c : SdfCamera) : R :=
  FovToFocalLength w (HorizontalFov c).

(** A camera PI / 2 wide behind a lens of focal length 1 m. *)
Definition squareCamera : SdfCamera := mkSdfCamera (PI / 2) 1.

(** * Properties *)

(** ** Numeric primitives *)

Lemma epsilon_pos : 0 < epsilon.
Proof.
  unfold epsilon. apply Rinv_0_lt_compat, pow_lt. lra.
Qed.

Lemma epsilon_small : epsilon < / 1000000000.
Proof.
  unfold epsilon. apply Rinv_lt_contravar.
  - apply Rmult_lt_0_compat; [lra | apply pow_lt; lra].
  - replace 52%nat with (30 + 22)%nat by reflexivity.
    rewrite pow_add.
    assert (H30 : 1000000000 < 2 ^ 30) by (simpl; lra).
    assert (H22 : 1 <= 2 ^ 22) by (apply pow_R1_Rle; lra).
    nra.
Qed.

Lemma epsilon_lt_1 : epsilon < 1.
Proof. pose proof epsilon_small. lra. Qed.

Lemma two_lt_PI : 2 < PI.
Proof. pose proof PI2_1. lra. Qed.

Lemma min_Rmin (a b : R) : min a b = Rmin a b.
Proof.
  unfold min, Rmin.
  destruct (Rlt_dec b a), (Rle_dec a b); lra.
Qed.

Lemma clamp_bounds (v lo hi : R) : lo <= hi -> lo <= clamp v lo hi <= hi.
Proof.
  intros H. unfold clamp.
  destruct (Rlt_dec v lo); [lra |].
  destruct (Rlt_dec hi v); lra.
Qed.

Lemma clamp_id (v lo hi : R) : lo <= v <= hi -> clamp v lo hi = v.
Proof.
  intros H. unfold clamp.
  destruct (Rlt_dec v lo); [lra |].
  destruct (Rlt_dec hi v); lra.
Qed.

Lemma atan2_pos (y x : R) : 0 < x -> atan2 y x = atan (y / x).
Proof.
  intros H. unfold atan2. destruct (Rlt_dec 0 x); [reflexivity | contradiction].
Qed.

Lemma tan_half_pos (a : R) : 0 < a < PI -> 0 < tan (a / 2).
Proof.
  intros H. apply tan_gt_0; lra.
Qed.

Lemma atan_tan_half (a : R) : 0 < a < PI -> 2 * atan (tan (a / 2)) = a.
Proof.
  intros H. rewrite atan_tan; lra.
Qed.

(** The tangent is monotone on the half angles of (0, PI). *)
Lemma tan_half_le (a b : R) :
  0 < a < PI -> 0 < b < PI -> a <= b -> tan (a / 2) <= tan (b / 2).
Proof.
  intros Ha Hb [Hlt | Heq].
  - left. apply tan_increasing; lra.
  - subst. right. reflexivity.
Qed.

Lemma tan_half_lt (a b : R) :
  0 < a < PI -> 0 < b < PI -> a < b -> tan (a / 2) < tan (b / 2).
Proof.
  intros Ha Hb Hlt. apply tan_increasing; lra.
Qed.

Lemma tan_half_le_inv (a b : R) :
  0 < a < PI -> 0 < b < PI -> tan (a / 2) <= tan (b / 2) -> a <= b.
Proof.
  intros Ha Hb H. destruct (Rle_lt_dec a b) as [Hle | Hgt]; [exact Hle |].
  pose proof (tan_half_lt b a Hb Ha Hgt). lra.
Qed.

Lemma atan_pos (x : R) : 0 < x -> 0 < atan x.
Proof.
  intros H. rewrite <- atan_0. now apply atan_increasing.
Qed.

(** ** Optics *)

Lemma SensorWidth_pos (focalLength fov : R) :
  0 < focalLength -> 0 < fov < PI -> 0 < SensorWidth focalLength fov.
Proof.
  intros Hf Hfov. unfold SensorWidth.
  pose proof (tan_half_pos fov Hfov). nra.
Qed.

Lemma FocalLengthToFov_pos (w f : R) :
  0 < f -> FocalLengthToFov w f = 2 * atan (w / (2 * f)).
Proof.
  intros Hf. unfold FocalLengthToFov. rewrite atan2_pos by lra. reflexivity.
Qed.

Lemma FocalLengthToFov_SensorWidth (focalLength fov : R) :
  0 < focalLength -> 0 < fov < PI ->
  FocalLengthToFov (SensorWidth focalLength fov) focalLength = fov.
Proof.
  intros Hf Hfov. rewrite FocalLengthToFov_pos by exact Hf.
  unfold SensorWidth.
  replace (2 * tan (fov / 2) * focalLength / (2 * focalLength))
    with (tan (fov / 2)) by (field; lra).
  now apply atan_tan_half.
Qed.

Lemma FovToFocalLength_SensorWidth (focalLength fov : R) :
  0 < fov < PI ->
  FovToFocalLength (SensorWidth focalLength fov) fov = focalLength.
Proof.
  intros Hfov. unfold FovToFocalLength, SensorWidth.
  pose proof (tan_half_pos fov Hfov). field. lra.
Qed.

Lemma SensorWidth_FovToFocalLength (w fov : R) :
  0 < fov < PI ->
  SensorWidth (FovToFocalLength w fov) fov = w.
Proof.
  intros Hfov. unfold FovToFocalLength, SensorWidth.
  pose proof (tan_half_pos fov Hfov). field. lra.
Qed.

Lemma FovToFocalLength_FocalLengthToFov (w focalLength : R) :
  0 < w -> 0 < focalLength ->
  FovToFocalLength w (FocalLengthToFov w focalLength) = focalLength.
Proof.
  intros Hw Hf. rewrite FocalLengthToFov_pos by exact Hf.
  unfold FovToFocalLength.
  replace (2 * atan (w / (2 * focalLength)) / 2)
    with (atan (w / (2 * focalLength))) by lra.
  rewrite tan_atan. field. lra.
Qed.

(** C4.  For a positive focal length and a field of view in (0, PI),
    converting the pair to a sensor width and that width back to a
    field of view returns the field of view exactly, hence within
    1e-9; the two other compositions of the three conversions are
    identities on the same domain as well. *)
Theorem optics_round_trip (focalLength fov : R) :
  0 < focalLength -> 0 < fov < PI ->
  FocalLengthToFov (SensorWidth focalLength fov) focalLength = fov
  /\ Rabs (FocalLengthToFov (SensorWidth focalLength fov) focalLength - fov)
     < / 1000000000
  /\ FovToFocalLength (SensorWidth focalLength fov) fov = focalLength
  /\ SensorWidth
       (FovToFocalLength (SensorWidth focalLength fov) fov) fov
     = SensorWidth focalLength fov
  /\ FovToFocalLength (SensorWidth focalLength fov)
       (FocalLengthToFov (SensorWidth focalLength fov) focalLength)
     = focalLength.
Proof.
  intros Hf Hfov.
  pose proof (FocalLengthToFov_SensorWidth focalLength fov Hf Hfov) as Hrt.
  pose proof (SensorWidth_pos focalLength fov Hf Hfov) as Hw.
  repeat split.
  - exact Hrt.
  - rewrite Hrt. replace (fov - fov) with 0 by ring. rewrite Rabs_R0.
    apply Rinv_0_lt_compat. lra.
  - now apply FovToFocalLength_SensorWidth.
  - now apply SensorWidth_FovToFocalLength.
  - now apply FovToFocalLength_FocalLengthToFov.
Qed.

(** ** Goal resolution *)

Lemma resolveGoal_frame (i : Impl) :
  let i1 := fst (resolveGoal i) in
  cameraName i1 = cameraName i /\ zoomCommand i1 = zoomCommand i
  /\ refHfov i1 = refHfov i /\ maxZoom i1 = maxZoom i
  /\ slewRate i1 = slewRate i /\ isValidConfig i1 = isValidConfig i
  /\ scene i1 = scene i /\ camera i1 = camera i
  /\ zoomChanged i1 = false.
Proof.
  unfold resolveGoal. destruct (zoomChanged i) eqn:E; simpl; auto 10.
Qed.

Lemma resolveGoal_goal (i : Impl) :
  goalHfov (fst (resolveGoal i)) =
  if zoomChanged i
  then refHfov i / clamp (zoomCommand i) minZoom (maxZoom i)
  else goalHfov i.
Proof.
  unfold resolveGoal. destruct (zoomChanged i); reflexivity.
Qed.

Lemma resolveGoal_log (i : Impl) :
  snd (resolveGoal i) =
  if zoomChanged i then
    if Rgt_dec (abs (zoomCommand i - clamp (zoomCommand i) minZoom (maxZoom i)))
         epsilon
    then [WarnClamped (zoomCommand i)
            (clamp (zoomCommand i) minZoom (maxZoom i))]
    else []
  else [].
Proof.
  unfold resolveGoal. destruct (zoomChanged i); reflexivity.
Qed.

Lemma resolveGoal_idle (i : Impl) :
  zoomChanged i = false -> resolveGoal i = (i, []).
Proof.
  intros H. unfold resolveGoal. now rewrite H.
Qed.

Lemma resolveGoal_no_fov_signal (i : Impl) :
  filter isFovSignal (snd (resolveGoal i)) = [].
Proof.
  rewrite resolveGoal_log.
  destruct (zoomChanged i); [| reflexivity].
  now destruct (Rgt_dec _ _).
Qed.

(** ** The shape of a step *)

Lemma PreUpdate_active (info : UpdateInfo) (r : Rendering)
  (i : Impl) (ecm : EntityComponentManager) (cam : CameraPtr) (c : SdfCamera) :
  isValidConfig i = true -> camera i = Some cam -> cameraOf ecm = Some c ->
  PreUpdate info r i ecm = activeStep info cam i ecm c.
Proof.
  intros Hv Hc He. unfold PreUpdate, activeStep, cameraOf in *.
  rewrite Hv, Hc. simpl.
  destruct (CameraComponent ecm) as [sensor |]; [| discriminate].
  rewrite He. destruct (resolveGoal i) as [i1 log1]. reflexivity.
Qed.

Lemma PreUpdate_invalid (info : UpdateInfo) (r : Rendering)
  (i : Impl) (ecm : EntityComponentManager) :
  isValidConfig i = false -> PreUpdate info r i ecm = (i, ecm, []).
Proof.
  intros H. unfold PreUpdate. now rewrite H.
Qed.

Lemma PreUpdate_acquiring (info : UpdateInfo) (r : Rendering)
  (i : Impl) (ecm : EntityComponentManager) :
  isValidConfig i = true -> camera i = None ->
  PreUpdate info r i ecm =
  (fst (InitialiseCamera r i), ecm, snd (InitialiseCamera r i)).
Proof.
  intros Hv Hc. unfold PreUpdate. rewrite Hv, Hc. simpl.
  now destruct (InitialiseCamera r i).
Qed.

Lemma InitialiseCamera_frame (r : Rendering) (i : Impl) :
  let i' := fst (InitialiseCamera r i) in
  cameraName i' = cameraName i /\ zoomChanged i' = zoomChanged i
  /\ zoomCommand i' = zoomCommand i /\ refHfov i' = refHfov i
  /\ goalHfov i' = goalHfov i /\ maxZoom i' = maxZoom i
  /\ slewRate i' = slewRate i /\ isValidConfig i' = isValidConfig i.
Proof.
  unfold InitialiseCamera.
  destruct (loadedEngines_empty r); [simpl; auto 10 |].
  destruct (scene i) as [sp |] eqn:Es; simpl.
  - rewrite Es.
    destruct (negb (IsInitialized (deref r sp)) || _); [simpl; auto 10 |].
    destruct (camera i); [simpl; auto 10 |].
    destruct (SensorByName (deref r sp) (cameraName i)) as [s |];
      [| simpl; auto 10].
    destruct s; simpl; auto 10.
  - destruct (sceneFromFirstRenderEngine r) as [sp |]; [| simpl; auto 10].
    destruct (negb (IsInitialized (deref r sp)) || _); [simpl; auto 10 |].
    destruct (camera i); [simpl; auto 10 |].
    destruct (SensorByName (deref r sp) (cameraName i)) as [s |];
      [| simpl; auto 10].
    destruct s; simpl; auto 10.
Qed.

Lemma InitialiseCamera_no_fov_signal (r : Rendering) (i : Impl) :
  filter isFovSignal (snd (InitialiseCamera r i)) = []
  /\ filter isWarnClamped (snd (InitialiseCamera r i)) = [].
Proof.
  unfold InitialiseCamera.
  destruct (loadedEngines_empty r); [now split |].
  destruct (scene i) as [sp |] eqn:Es; simpl.
  - rewrite Es.
    destruct (negb (IsInitialized (deref r sp)) || _); [now split |].
    destruct (camera i); [now split |].
    destruct (SensorByName (deref r sp) (cameraName i)) as [s |];
      [| now split].
    destruct s; now split.
  - destruct (sceneFromFirstRenderEngine r) as [sp |]; [| now split].
    destruct (negb (IsInitialized (deref r sp)) || _); [now split |].
    destruct (camera i); [now split |].
    destruct (SensorByName (deref r sp) (cameraName i)) as [s |];
      [| now split].
    destruct s; now split.
Qed.

(** ** The focal-length step *)

Lemma seconds_nonneg (d : Z) : (0 <= d)%Z -> 0 <= seconds d.
Proof.
  intros H. unfold seconds. apply IZR_le in H.
  apply Rmult_le_pos; [exact H |]. left. apply Rinv_0_lt_compat. lra.
Qed.

Lemma seconds_pos (d : Z) : (0 < d)%Z -> 0 < seconds d.
Proof.
  intros H. unfold seconds. apply IZR_lt in H.
  apply Rmult_lt_0_compat; [exact H |]. apply Rinv_0_lt_compat. lra.
Qed.

Lemma seconds_0 : seconds 0 = 0.
Proof. unfold seconds. lra. Qed.

(** With a non-negative bound [m], the finite branch moves [cur]
    toward [goal] by [Rmin m |cur - goal|]. *)
Lemma slewFocalLength_finite (r : R) (d : Z) (cur goal : R) :
  0 <= r * seconds d ->
  let delta := Rmin (r * seconds d) (Rabs (cur - goal)) in
  let new := slewFocalLength (Finite r) d cur goal in
  new = (if Rgt_dec goal cur then cur + delta else cur - delta)
  /\ 0 <= delta
  /\ Rabs (new - cur) = delta
  /\ Rabs (goal - new) = Rabs (goal - cur) - delta
  /\ Rmin cur goal <= new <= Rmax cur goal.
Proof.
  intros Hm delta new. subst delta new. unfold slewFocalLength, abs.
  rewrite min_Rmin.
  set (m := r * seconds d) in *.
  assert (Ha : (goal <= cur /\ Rabs (cur - goal) = cur - goal)
               \/ (cur < goal /\ Rabs (cur - goal) = goal - cur)).
  { unfold Rabs. destruct (Rcase_abs (cur - goal)); [right | left]; lra. }
  destruct Ha as [[Ho Ha] | [Ho Ha]]; rewrite Ha;
    unfold Rmin; destruct (Rle_dec m _); destruct (Rgt_dec goal cur);
    unfold Rmax, Rabs;
    repeat match goal with
           | |- context [Rle_dec ?a ?b] => destruct (Rle_dec a b)
           | |- context [Rcase_abs ?a] => destruct (Rcase_abs a)
           end; repeat split; lra.
Qed.

(** ** One rate-limited step on a well-formed lens *)

Section Lens.

Variables (r : R) (d : Z) (f g h : R).
Hypothesis Hm : 0 <= r * seconds d.
Hypothesis Hf : 0 < f.
Hypothesis Hg : 0 < g < PI.
Hypothesis Hh : 0 < h < PI.

Let c : SdfCamera := mkSdfCamera h f.
Let t : R := tan (h / 2).
Let T : R := tan (g / 2).
Let new : R := newFocalLength (Finite r) d g c.
Let h' : R := newHfov (Finite r) d g c.

Lemma lens_goalFocalLength : goalFocalLength g c = f * t / T.
Proof.
  unfold goalFocalLength, sensorWidth, curFocalLength, oldHfov,
    FovToFocalLength, SensorWidth, c, t, T. simpl.
  pose proof (tan_half_pos g Hg). field. lra.
Qed.

Lemma lens_goalFocalLength_pos : 0 < goalFocalLength g c.
Proof.
  rewrite lens_goalFocalLength.
  pose proof (tan_half_pos g Hg). pose proof (tan_half_pos h Hh).
  apply Rdiv_lt_0_compat; [apply Rmult_lt_0_compat |]; assumption.
Qed.

Lemma lens_new_between :
  Rmin f (goalFocalLength g c) <= new <= Rmax f (goalFocalLength g c).
Proof.
  exact (proj2 (proj2 (proj2 (proj2
    (slewFocalLength_finite r d f (goalFocalLength g c) Hm))))).
Qed.

Lemma lens_new_pos : 0 < new.
Proof.
  pose proof lens_new_between as [Hlo _].
  pose proof lens_goalFocalLength_pos.
  revert Hlo. unfold Rmin. destruct (Rle_dec _ _); lra.
Qed.

Lemma lens_tan_newHfov : tan (h' / 2) = t * f / new.
Proof.
  unfold h', newHfov. fold new.
  rewrite FocalLengthToFov_pos by exact lens_new_pos.
  replace (2 * atan (sensorWidth c / (2 * new)) / 2)
    with (atan (sensorWidth c / (2 * new))) by lra.
  rewrite tan_atan.
  unfold sensorWidth, curFocalLength, oldHfov, SensorWidth, c, t. simpl.
  pose proof lens_new_pos. field. lra.
Qed.

Lemma lens_newHfov_range : 0 < h' < PI.
Proof.
  unfold h', newHfov. fold new.
  rewrite FocalLengthToFov_pos by exact lens_new_pos.
  assert (Hw : 0 < sensorWidth c) by (apply SensorWidth_pos; assumption).
  assert (Hx : 0 < sensorWidth c / (2 * new)).
  { apply Rdiv_lt_0_compat; [exact Hw | pose proof lens_new_pos; lra]. }
  pose proof (atan_pos _ Hx).
  pose proof (atan_bound (sensorWidth c / (2 * new))) as [_ Hub].
  split; lra.
Qed.

Lemma lens_newHfov_eq_goal : tan (h' / 2) = T -> h' = g.
Proof.
  intros H. pose proof lens_newHfov_range.
  assert (E : h' / 2 = g / 2) by (apply tan_inj; [lra | lra | exact H]).
  lra.
Qed.

(** Zooming in: the goal is the narrower field of view. *)
Lemma lens_step_in : g <= h -> g <= h' <= h.
Proof.
  intros Hgh.
  pose proof (tan_half_pos g Hg) as HT. pose proof (tan_half_pos h Hh) as Ht.
  pose proof (tan_half_le g h Hg Hh Hgh) as HTt. fold T t in HT, Ht, HTt.
  pose proof lens_new_between as [Hlo Hhi].
  pose proof lens_new_pos as Hn.
  rewrite lens_goalFocalLength in Hlo, Hhi.
  assert (Hge : f <= f * t / T).
  { apply (Rmult_le_reg_r T); [exact HT |].
    replace (f * t / T * T) with (f * t) by (field; lra). nra. }
  rewrite Rmin_left in Hlo by exact Hge.
  rewrite Rmax_right in Hhi by exact Hge.
  assert (Hup : new * T <= f * t).
  { apply (Rmult_le_compat_r T) in Hhi; [| lra].
    replace (f * t / T * T) with (f * t) in Hhi by (field; lra). exact Hhi. }
  pose proof lens_newHfov_range as Hr.
  split; apply tan_half_le_inv; try assumption;
    fold T t; rewrite lens_tan_newHfov.
  - apply (Rmult_le_reg_r new); [exact Hn |].
    replace (t * f / new * new) with (t * f) by (field; lra). lra.
  - apply (Rmult_le_reg_r new); [exact Hn |].
    replace (t * f / new * new) with (t * f) by (field; lra). nra.
Qed.

(** Zooming out: the goal is the wider field of view. *)
Lemma lens_step_out : h <= g -> h <= h' <= g.
Proof.
  intros Hhg.
  pose proof (tan_half_pos g Hg) as HT. pose proof (tan_half_pos h Hh) as Ht.
  pose proof (tan_half_le h g Hh Hg Hhg) as HtT. fold T t in HT, Ht, HtT.
  pose proof lens_new_between as [Hlo Hhi].
  pose proof lens_new_pos as Hn.
  rewrite lens_goalFocalLength in Hlo, Hhi.
  assert (Hle : f * t / T <= f).
  { apply (Rmult_le_reg_r T); [exact HT |].
    replace (f * t / T * T) with (f * t) by (field; lra). nra. }
  rewrite Rmin_right in Hlo by exact Hle.
  rewrite Rmax_left in Hhi by exact Hle.
  assert (Hdn : f * t <= new * T).
  { apply (Rmult_le_compat_r T) in Hlo; [| lra].
    replace (f * t / T * T) with (f * t) in Hlo by (field; lra). exact Hlo. }
  pose proof lens_newHfov_range as Hr.
  split; apply tan_half_le_inv; try assumption;
    fold T t; rewrite lens_tan_newHfov.
  - apply (Rmult_le_reg_r new); [exact Hn |].
    replace (t * f / new * new) with (t * f) by (field; lra). nra.
  - apply (Rmult_le_reg_r new); [exact Hn |].
    replace (t * f / new * new) with (t * f) by (field; lra). lra.
Qed.

End Lens.

(** ** The early exit *)

Lemma goalAchieved_true (goal : R) (c : SdfCamera) :
  goalAchieved goal c = true <-> Rabs (goal - HorizontalFov c) < epsilon.
Proof.
  unfold goalAchieved, abs, oldHfov.
  destruct (Rlt_dec _ _); split; intros; try assumption;
    try reflexivity; try discriminate; contradiction.
Qed.

Lemma goalAchieved_false (goal : R) (c : SdfCamera) :
  goalAchieved goal c = false <-> epsilon <= Rabs (goal - HorizontalFov c).
Proof.
  unfold goalAchieved, abs, oldHfov.
  destruct (Rlt_dec _ _); split; intros; try reflexivity;
    try discriminate; lra.
Qed.

Lemma goalAchieved_at_goal (c : SdfCamera) :
  goalAchieved (HorizontalFov c) c = true.
Proof.
  apply goalAchieved_true.
  replace (HorizontalFov c - HorizontalFov c) with 0 by ring.
  rewrite Rabs_R0. exact epsilon_pos.
Qed.

Lemma tickCamera_achieved (rate : xdouble) (d : Z) (goal : R) (c : SdfCamera) :
  goalAchieved goal c = true -> tickCamera rate d goal c = c.
Proof.
  intros H. unfold tickCamera. now rewrite H.
Qed.

Lemma tickCamera_focal (rate : xdouble) (d : Z) (goal : R) (c : SdfCamera) :
  LensFocalLength (tickCamera rate d goal c) = LensFocalLength c.
Proof.
  unfold tickCamera. destruct (goalAchieved goal c); reflexivity.
Qed.

Lemma iterCamera_S_r (n : nat) (rate : xdouble) (d : Z) (goal : R)
  (c : SdfCamera) :
  iterCamera (S n) rate d goal c =
  tickCamera rate d goal (iterCamera n rate d goal c).
Proof.
  revert c. induction n as [| n IH]; intros c; [reflexivity |].
  change (iterCamera (S (S n)) rate d goal c)
    with (iterCamera (S n) rate d goal (tickCamera rate d goal c)).
  rewrite IH. reflexivity.
Qed.

Lemma iterCamera_focal (n : nat) (rate : xdouble) (d : Z) (goal : R)
  (c : SdfCamera) :
  LensFocalLength (iterCamera n rate d goal c) = LensFocalLength c.
Proof.
  induction n as [| n IH]; [reflexivity |].
  rewrite iterCamera_S_r, tickCamera_focal. exact IH.
Qed.

Lemma iterCamera_achieved (n k : nat) (rate : xdouble) (d : Z) (goal : R)
  (c : SdfCamera) :
  goalAchieved goal (iterCamera k rate d goal c) = true -> (k <= n)%nat ->
  iterCamera n rate d goal c = iterCamera k rate d goal c.
Proof.
  intros Ha Hkn. induction Hkn as [| n Hkn IH]; [reflexivity |].
  rewrite iterCamera_S_r, IH. now apply tickCamera_achieved.
Qed.

(** ** Steps of the whole plugin *)

Lemma cameraOf_ecmOf (ecm : EntityComponentManager) (c : SdfCamera) :
  cameraOf ecm = Some c -> ecm = ecmOf c.
Proof.
  destruct ecm as [[[oc] |]]; unfold cameraOf; simpl; intros H;
    [| discriminate].
  now subst oc.
Qed.

Lemma PreUpdate_tick (info : UpdateInfo) (rend : Rendering)
  (i : Impl) (ecm : EntityComponentManager) (cam : CameraPtr) (c : SdfCamera) :
  isValidConfig i = true -> camera i = Some cam -> zoomChanged i = false ->
  cameraOf ecm = Some c ->
  fst (PreUpdate info rend i ecm) =
  (i, ecmOf (tickCamera (slewRate i) (dt info) (goalHfov i) c)).
Proof.
  intros Hv Hc Hz He.
  rewrite (PreUpdate_active info rend i ecm cam c Hv Hc He).
  unfold activeStep, tickCamera. rewrite (resolveGoal_idle i Hz). simpl.
  destruct (goalAchieved (goalHfov i) c); simpl; [| reflexivity].
  now rewrite (cameraOf_ecmOf ecm c He).
Qed.

Lemma run_ticks (n : nat) (info : UpdateInfo) (rend : Rendering)
  (i : Impl) (ecm : EntityComponentManager) (cam : CameraPtr) (c : SdfCamera) :
  isValidConfig i = true -> camera i = Some cam -> zoomChanged i = false ->
  cameraOf ecm = Some c ->
  fst (run (ticks n info rend) (i, ecm)) =
  (i, ecmOf (iterCamera n (slewRate i) (dt info) (goalHfov i) c)).
Proof.
  intros Hv Hc Hz. revert ecm c.
  induction n as [| n IH]; intros ecm c He.
  - simpl. now rewrite (cameraOf_ecmOf ecm c He).
  - unfold ticks. simpl.
    pose proof (PreUpdate_tick info rend i ecm cam c Hv Hc Hz He) as Ht.
    destruct (PreUpdate info rend i ecm) as [[i' ecm'] log]. simpl in Ht.
    injection Ht as Hi He'. subst i' ecm'.
    specialize (IH (ecmOf (tickCamera (slewRate i) (dt info) (goalHfov i) c))
                  (tickCamera (slewRate i) (dt info) (goalHfov i) c)
                  eq_refl).
    unfold ticks in IH.
    destruct (run (repeat (EvPreUpdate info rend) n) _) as [s2 log2].
    simpl in *. exact IH.
Qed.

Lemma cameraAfter_ticks (n : nat) (info : UpdateInfo) (rend : Rendering)
  (i : Impl) (ecm : EntityComponentManager) (cam : CameraPtr) (c : SdfCamera) :
  isValidConfig i = true -> camera i = Some cam -> zoomChanged i = false ->
  cameraOf ecm = Some c ->
  cameraAfter (ticks n info rend) (i, ecm) =
  Some (iterCamera n (slewRate i) (dt info) (goalHfov i) c).
Proof.
  intros Hv Hc Hz He. unfold cameraAfter.
  now rewrite (run_ticks n info rend i ecm cam c Hv Hc Hz He).
Qed.

(** The first of a series of steps also resolves a pending command. *)
Lemma PreUpdate_tick_commanded (info : UpdateInfo) (rend : Rendering)
  (i : Impl) (ecm : EntityComponentManager) (cam : CameraPtr) (c : SdfCamera) :
  isValidConfig i = true -> camera i = Some cam -> cameraOf ecm = Some c ->
  fst (PreUpdate info rend i ecm) =
  (fst (resolveGoal i),
   ecmOf (tickCamera (slewRate i) (dt info)
            (goalHfov (fst (resolveGoal i))) c)).
Proof.
  intros Hv Hc He.
  rewrite (PreUpdate_active info rend i ecm cam c Hv Hc He).
  unfold activeStep, tickCamera.
  pose proof (resolveGoal_frame i) as [_ [_ [_ [_ [Hsl _]]]]].
  rewrite Hsl.
  destruct (goalAchieved (goalHfov (fst (resolveGoal i))) c); simpl;
    [| reflexivity].
  now rewrite (cameraOf_ecmOf ecm c He).
Qed.

Lemma run_ticks_commanded (n : nat) (info : UpdateInfo) (rend : Rendering)
  (i : Impl) (ecm : EntityComponentManager) (cam : CameraPtr) (c : SdfCamera) :
  isValidConfig i = true -> camera i = Some cam -> cameraOf ecm = Some c ->
  fst (run (ticks (S n) info rend) (i, ecm)) =
  (fst (resolveGoal i),
   ecmOf (iterCamera (S n) (slewRate i) (dt info)
            (goalHfov (fst (resolveGoal i))) c)).
Proof.
  intros Hv Hc He.
  pose proof (PreUpdate_tick_commanded info rend i ecm cam c Hv Hc He) as Ht.
  pose proof (resolveGoal_frame i)
    as [_ [_ [_ [_ [Hsl [Hv1 [_ [Hc1 Hz1]]]]]]]].
  set (i1 := fst (resolveGoal i)) in *.
  set (c1 := tickCamera (slewRate i) (dt info) (goalHfov i1) c) in *.
  assert (Hv1' : isValidConfig i1 = true) by (now rewrite Hv1).
  assert (Hc1' : camera i1 = Some cam) by (now rewrite Hc1).
  pose proof (run_ticks n info rend i1 (ecmOf c1) cam c1 Hv1' Hc1' Hz1 eq_refl)
    as IH.
  rewrite Hsl in IH.
  unfold ticks in *. simpl.
  destruct (PreUpdate info rend i ecm) as [[i' ecm'] log]. simpl in Ht.
  injection Ht as Hi He'. subst i' ecm'.
  destruct (run (repeat (EvPreUpdate info rend) n) _) as [s2 log2].
  simpl in *. exact IH.
Qed.

(** ** The five ways through a step *)

Lemma PreUpdate_cases (info : UpdateInfo) (rend : Rendering)
  (i : Impl) (ecm : EntityComponentManager) :
  (isValidConfig i = false /\ PreUpdate info rend i ecm = (i, ecm, []))
  \/ (isValidConfig i = true /\ camera i = None
      /\ PreUpdate info rend i ecm =
         (fst (InitialiseCamera rend i), ecm, snd (InitialiseCamera rend i)))
  \/ (isValidConfig i = true /\ camera i <> None
      /\ CameraComponent ecm = None
      /\ PreUpdate info rend i ecm = (i, ecm, []))
  \/ (isValidConfig i = true /\ camera i <> None
      /\ CameraComponent ecm <> None /\ cameraOf ecm = None
      /\ PreUpdate info rend i ecm =
         (fst (resolveGoal i), ecm, snd (resolveGoal i)))
  \/ (exists cam c,
        isValidConfig i = true /\ camera i = Some cam
        /\ cameraOf ecm = Some c
        /\ PreUpdate info rend i ecm = activeStep info cam i ecm c).
Proof.
  destruct (isValidConfig i) eqn:Hv.
  2:{ left. split; [reflexivity | now apply PreUpdate_invalid]. }
  right. destruct (camera i) as [cam |] eqn:Hc.
  2:{ left. repeat split. now apply PreUpdate_acquiring. }
  right. destruct (CameraComponent ecm) as [sensor |] eqn:Hs.
  2:{ left. repeat split; [discriminate |].
      unfold PreUpdate. now rewrite Hv, Hc, Hs. }
  right. destruct (CameraSensor sensor) as [c |] eqn:Hcs.
  - right. exists cam, c. repeat split.
    + unfold cameraOf. now rewrite Hs.
    + apply PreUpdate_active; try assumption.
      unfold cameraOf. now rewrite Hs.
  - left. repeat split; try discriminate.
    + unfold cameraOf. now rewrite Hs.
    + unfold PreUpdate. rewrite Hv, Hc, Hs. simpl.
      destruct (resolveGoal i). now rewrite Hcs.
Qed.

Lemma commandDetected_true (i : Impl) (ecm : EntityComponentManager) :
  commandDetected i ecm = true ->
  isValidConfig i = true /\ camera i <> None
  /\ CameraComponent ecm <> None /\ zoomChanged i = true.
Proof.
  unfold commandDetected. intros H.
  apply andb_true_iff in H as [H Hz].
  apply andb_true_iff in H as [H Hs].
  apply andb_true_iff in H as [Hv Hc].
  repeat split; try assumption.
  - destruct (camera i); [discriminate | discriminate].
  - destruct (CameraComponent ecm); [discriminate | discriminate].
Qed.

(** Past the three guards the plugin state and the clamp warnings of a
    step are those of the goal resolution. *)
Lemma PreUpdate_resolves (info : UpdateInfo) (rend : Rendering)
  (i : Impl) (ecm : EntityComponentManager) :
  isValidConfig i = true -> camera i <> None -> CameraComponent ecm <> None ->
  fst (fst (PreUpdate info rend i ecm)) = fst (resolveGoal i)
  /\ filter isWarnClamped (snd (PreUpdate info rend i ecm))
     = snd (resolveGoal i).
Proof.
  intros Hv Hc Hs.
  assert (Hw : filter isWarnClamped (snd (resolveGoal i))
               = snd (resolveGoal i)).
  { rewrite resolveGoal_log. destruct (zoomChanged i); [| reflexivity].
    now destruct (Rgt_dec _ _). }
  destruct (PreUpdate_cases info rend i ecm)
    as [[Hv' _] | [[_ [Hc' _]] | [[_ [_ [Hs' _]]] | [H | H]]]];
    try congruence.
  - destruct H as [_ [_ [_ [_ H]]]]. rewrite H. simpl. now split.
  - destruct H as [cam [c [_ [_ [_ H]]]]]. rewrite H. unfold activeStep.
    destruct (goalAchieved _ c); simpl; [now split |].
    split; [reflexivity |].
    rewrite filter_app. simpl. rewrite app_nil_r. exact Hw.
Qed.

(** Short of the three guards a step neither touches the goal nor
    warns about a clamp. *)
Lemma PreUpdate_idle (info : UpdateInfo) (rend : Rendering)
  (i : Impl) (ecm : EntityComponentManager) :
  commandDetected i ecm = false ->
  goalHfov (fst (fst (PreUpdate info rend i ecm))) = goalHfov i
  /\ zoomCommand (fst (fst (PreUpdate info rend i ecm))) = zoomCommand i
  /\ filter isWarnClamped (snd (PreUpdate info rend i ecm)) = [].
Proof.
  intros Hd.
  destruct (PreUpdate_cases info rend i ecm)
    as [[_ H] | [[_ [_ H]] | [[_ [_ [_ H]]] | [H | H]]]].
  - rewrite H. simpl. auto.
  - rewrite H. simpl.
    pose proof (InitialiseCamera_frame rend i) as [_ [_ [Hz [_ [Hg _]]]]].
    pose proof (InitialiseCamera_no_fov_signal rend i) as [_ Hw]. auto.
  - rewrite H. simpl. auto.
  - destruct H as [Hv [Hc [Hs [_ H]]]].
    assert (Hz : zoomChanged i = false).
    { unfold commandDetected in Hd. rewrite Hv in Hd.
      destruct (camera i); [| congruence].
      destruct (CameraComponent ecm); [| congruence]. exact Hd. }
    rewrite H, (resolveGoal_idle i Hz). simpl. auto.
  - destruct H as [cam [c [Hv [Hc [He H]]]]].
    assert (Hz : zoomChanged i = false).
    { unfold commandDetected in Hd. rewrite Hv, Hc in Hd.
      unfold cameraOf in He.
      destruct (CameraComponent ecm); [| discriminate]. exact Hd. }
    rewrite H. unfold activeStep. rewrite (resolveGoal_idle i Hz). simpl.
    destruct (goalAchieved (goalHfov i) c); simpl; auto.
Qed.

(** ** Goal resolution on a command change *)











(** ** The clamp warning *)


(** ** Acquisition of the rendering camera *)

(** C10.  A step of a configured plugin that holds no rendering camera
    only runs the camera acquisition: the entity-component manager,
    the command latch and the goal are left as they are and nothing is
    published or warned about a clamp, whether or not the acquisition
    succeeds; when it succeeds and a command is pending, the next step
    that finds the camera component resolves the goal from that
    command. *)
Theorem acquisition_step
  (info : UpdateInfo) (rend : Rendering) (i : Impl)
  (ecm : EntityComponentManager) :
  isValidConfig i = true -> camera i = None ->
  let i' := fst (fst (PreUpdate info rend i ecm)) in
  let log := snd (PreUpdate info rend i ecm) in
  PreUpdate info rend i ecm =
  (fst (InitialiseCamera rend i), ecm, snd (InitialiseCamera rend i))
  /\ snd (fst (PreUpdate info rend i ecm)) = ecm
  /\ zoomChanged i' = zoomChanged i
  /\ zoomCommand i' = zoomCommand i
  /\ goalHfov i' = goalHfov i
  /\ filter isFovSignal log = []
  /\ filter isWarnClamped log = []
  /\ (camera i' <> None -> zoomChanged i = true ->
      forall info2 rend2 ecm2,
        CameraComponent ecm2 <> None ->
        let i'' := fst (fst (PreUpdate info2 rend2 i' ecm2)) in
        goalHfov i'' =
        refHfov i / clamp (zoomCommand i) minZoom (maxZoom i)
        /\ zoomChanged i'' = false).
Proof.
  intros Hv Hc i' log.
  pose proof (PreUpdate_acquiring info rend i ecm Hv Hc) as Hp.
  pose proof (InitialiseCamera_frame rend i)
    as [_ [Hz [Hzc [Hrf [Hg [Hmz [_ Hv']]]]]]].
  pose proof (InitialiseCamera_no_fov_signal rend i) as [Hnf Hnw].
  assert (Hi : i' = fst (InitialiseCamera rend i))
    by (unfold i'; now rewrite Hp).
  assert (Hl : log = snd (InitialiseCamera rend i))
    by (unfold log; now rewrite Hp).
  split; [exact Hp |].
  split; [now rewrite Hp |].
  rewrite Hi, Hl. repeat split; try assumption.
  - rewrite <- Hi in *.
    pose proof (PreUpdate_resolves info2 rend2 i' ecm2) as Hr.
    rewrite Hv', Hv in Hr. destruct (Hr eq_refl H H1) as [Hr1 _].
    rewrite Hr1, resolveGoal_goal, Hz, H0, Hzc, Hrf, Hmz. reflexivity.
  - rewrite <- Hi in *.
    pose proof (PreUpdate_resolves info2 rend2 i' ecm2) as Hr.
    rewrite Hv', Hv in Hr. destruct (Hr eq_refl H H1) as [Hr1 _].
    rewrite Hr1.
    now destruct (resolveGoal_frame i') as [_ [_ [_ [_ [_ [_ [_ [_ Hf]]]]]]]].
Qed.

(** ** Instant zoom *)

Lemma instant_newHfov (d : Z) (f g h : R) :
  0 < f -> 0 < g < PI -> 0 < h < PI ->
  newHfov NonFinite d g (mkSdfCamera h f) = g.
Proof.
  intros Hf Hg Hh.
  unfold newHfov, newFocalLength, slewFocalLength.
  pose proof (lens_goalFocalLength_pos f g h Hf Hg Hh) as Hpos.
  rewrite FocalLengthToFov_pos by exact Hpos.
  rewrite (lens_goalFocalLength f g h Hg) in *.
  unfold sensorWidth, curFocalLength, oldHfov, SensorWidth. simpl.
  pose proof (tan_half_pos g Hg) as HT. pose proof (tan_half_pos h Hh) as Ht.
  replace (2 * tan (h / 2) * f / (2 * (f * tan (h / 2) / tan (g / 2))))
    with (tan (g / 2)) by (field; repeat split; lra).
  now apply atan_tan_half.
Qed.

Lemma resolveGoal_range (i : Impl) :
  zoomChanged i = true -> 0 < refHfov i < PI -> 1 <= maxZoom i ->
  0 < goalHfov (fst (resolveGoal i)) < PI.
Proof.
  intros Hz Hr Hmax. rewrite resolveGoal_goal, Hz.
  pose proof (clamp_bounds (zoomCommand i) minZoom (maxZoom i) Hmax)
    as [Hlo _].
  unfold minZoom in *.
  set (k := clamp (zoomCommand i) 1 (maxZoom i)) in *.
  split.
  - apply Rdiv_lt_0_compat; lra.
  - apply (Rmult_lt_reg_r k); [lra |].
    replace (refHfov i / k * k) with (refHfov i) by (field; lra). nra.
Qed.

(** ** The change signal *)




(** ** Steps that leave the focal length where it is *)

Lemma slewFocalLength_still (r : R) (d : Z) (cur goal : R) :
  r * seconds d = 0 -> slewFocalLength (Finite r) d cur goal = cur.
Proof.
  intros H. unfold slewFocalLength. rewrite H.
  assert (Hmin : min 0 (abs (cur - goal)) = 0).
  { unfold min, abs. destruct (Rlt_dec (Rabs (cur - goal)) 0) as [Hlt |];
      [| reflexivity].
    pose proof (Rabs_pos (cur - goal)). lra. }
  rewrite Hmin. destruct (Rgt_dec goal cur); lra.
Qed.

Lemma zero_bound (r : R) (d : Z) : d = 0%Z \/ r = 0 -> r * seconds d = 0.
Proof.
  intros [H | H]; subst; [rewrite seconds_0 |]; lra.
Qed.

Lemma newHfov_still (rate : xdouble) (d : Z) (goal : R) (c : SdfCamera) :
  newFocalLength rate d goal c = curFocalLength c ->
  0 < LensFocalLength c -> 0 < HorizontalFov c < PI ->
  SetHorizontalFov c (newHfov rate d goal c) = c.
Proof.
  intros Hn Hf Hh. unfold newHfov. rewrite Hn.
  unfold sensorWidth, curFocalLength, oldHfov.
  rewrite FocalLengthToFov_SensorWidth by assumption.
  now destruct c.
Qed.

Lemma PreUpdate_still (info : UpdateInfo) (rend : Rendering) (i : Impl)
  (ecm : EntityComponentManager) (cam : CameraPtr) (c : SdfCamera) (r : R) :
  isValidConfig i = true -> camera i = Some cam -> cameraOf ecm = Some c ->
  slewRate i = Finite r -> r * seconds (dt info) = 0 ->
  0 < LensFocalLength c -> 0 < HorizontalFov c < PI ->
  fst (PreUpdate info rend i ecm) = (fst (resolveGoal i), ecm).
Proof.
  intros Hv Hc He Hs Hz Hf Hh.
  rewrite (PreUpdate_active info rend i ecm cam c Hv Hc He).
  unfold activeStep.
  pose proof (resolveGoal_frame i) as [_ [_ [_ [_ [Hsl _]]]]].
  destruct (goalAchieved _ c); [reflexivity |]. simpl.
  rewrite newHfov_still; try assumption.
  - now rewrite (cameraOf_ecmOf ecm c He).
  - rewrite Hsl, Hs. unfold newFocalLength.
    now apply slewFocalLength_still.
Qed.

Lemma run_ticks_still (n : nat) (info : UpdateInfo) (rend : Rendering)
  (i : Impl) (ecm : EntityComponentManager) (cam : CameraPtr)
  (c : SdfCamera) (r : R) :
  isValidConfig i = true -> camera i = Some cam -> cameraOf ecm = Some c ->
  slewRate i = Finite r -> r * seconds (dt info) = 0 ->
  0 < LensFocalLength c -> 0 < HorizontalFov c < PI ->
  fst (run (ticks (S n) info rend) (i, ecm)) = (fst (resolveGoal i), ecm).
Proof.
  intros Hv Hc He Hs Hz Hf Hh. revert i Hv Hc Hs.
  induction n as [| n IH]; intros i Hv Hc Hs.
  - unfold ticks. simpl.
    pose proof (PreUpdate_still info rend i ecm cam c r
                  Hv Hc He Hs Hz Hf Hh) as Hp.
    destruct (PreUpdate info rend i ecm) as [[i' ecm'] log]. exact Hp.
  - change (ticks (S (S n)) info rend)
      with (EvPreUpdate info rend :: ticks (S n) info rend).
    cbn [run step].
    pose proof (PreUpdate_still info rend i ecm cam c r
                  Hv Hc He Hs Hz Hf Hh) as Hp.
    destruct (PreUpdate info rend i ecm) as [[i' ecm'] log]. simpl in Hp.
    injection Hp as Hi' He'. subst i' ecm'.
    pose proof (resolveGoal_frame i)
      as [_ [_ [_ [_ [Hsl [Hv' [_ [Hc' Hz']]]]]]]].
    specialize (IH (fst (resolveGoal i))).
    rewrite Hv', Hc', Hsl in IH. specialize (IH Hv Hc Hs).
    rewrite (resolveGoal_idle _ Hz') in IH. cbn [fst] in IH.
    destruct (run (ticks (S n) info rend) (fst (resolveGoal i), ecm))
      as [s2 log2]. exact IH.
Qed.

(** ** Zero step duration and zero slew rate *)

(** C7, as the code has it.  With a finite slew rate, a step of
    duration zero, or any step when the rate is zero, computes a new
    focal length equal to the current one.  On a lens with positive
    focal length and a field of view in (0, PI) such steps leave the
    camera as it is, however many are taken, so a camera that is off
    the goal stays off it.  The two divisors of the step, the clamped
    zoom and twice the tangent of half the goal, are not zero when the
    maximum zoom is at least 1 and the goal lies in (0, PI). *)
Theorem zero_rate_or_duration
  (info : UpdateInfo) (rend : Rendering) (i : Impl)
  (ecm : EntityComponentManager) (cam : CameraPtr) (c : SdfCamera) (r : R) :
  isValidConfig i = true -> camera i = Some cam -> cameraOf ecm = Some c ->
  slewRate i = Finite r -> dt info = 0%Z \/ r = 0 ->
  let i1 := fst (resolveGoal i) in
  let goal := goalHfov i1 in
  newFocalLength (Finite r) (dt info) goal c = curFocalLength c
  /\ (0 < LensFocalLength c -> 0 < HorizontalFov c < PI ->
      (forall n, fst (run (ticks (S n) info rend) (i, ecm)) = (i1, ecm))
      /\ (goalAchieved goal c = false ->
          forall n,
            goalAchieved (goalHfov (implAfter (ticks (S n) info rend) (i, ecm)))
              c = false
            /\ cameraAfter (ticks (S n) info rend) (i, ecm) = Some c))
  /\ (0 < goal < PI -> 2 * tan (goal / 2) <> 0)
  /\ (1 <= maxZoom i -> clamp (zoomCommand i) minZoom (maxZoom i) <> 0).
Proof.
  intros Hv Hc He Hs Hz i1 goal.
  pose proof (zero_bound r (dt info) Hz) as Hb.
  split; [unfold newFocalLength; now apply slewFocalLength_still |].
  split; [| split].
  - intros Hf Hh.
    assert (Hrun : forall n,
               fst (run (ticks (S n) info rend) (i, ecm)) = (i1, ecm)).
    { intros n.
      exact (run_ticks_still n info rend i ecm cam c r
               Hv Hc He Hs Hb Hf Hh). }
    split; [exact Hrun |].
    intros Ha n. unfold implAfter, cameraAfter. rewrite (Hrun n). simpl.
    split; [exact Ha | exact He].
  - intros Hg. pose proof (tan_half_pos goal Hg). lra.
  - intros Hmax.
    pose proof (clamp_bounds (zoomCommand i) minZoom (maxZoom i) Hmax).
    unfold minZoom in *. lra.
Qed.

(** ** Runs *)

Lemma run_app (es1 es2 : list event) (s : system) :
  run (es1 ++ es2) s =
  (fst (run es2 (fst (run es1 s))),
   snd (run es1 s) ++ snd (run es2 (fst (run es1 s)))).
Proof.
  revert s. induction es1 as [| e es1 IH]; intros s.
  - simpl. now destruct (run es2 s).
  - simpl. destruct (step e s) as [s1 log1]. rewrite IH.
    destruct (run es1 s1) as [s2 log2]. simpl.
    destruct (run es2 s2) as [s3 log3]. simpl.
    now rewrite app_assoc.
Qed.

Lemma run_cons (e : event) (es : list event) (s : system) :
  run (e :: es) s =
  (fst (run es (fst (step e s))),
   snd (step e s) ++ snd (run es (fst (step e s)))).
Proof.
  cbn [run]. destruct (step e s) as [s1 log1]. cbn [fst snd].
  destruct (run es s1) as [s2 log2]. reflexivity.
Qed.

Lemma run_startup (rate : option xdouble) (c : SdfCamera) :
  run (startup rate) (Impl_default, ecmOf c)
  = ((exampleImpl rate c, ecmOf c), []).
Proof. destruct rate; reflexivity. Qed.

Lemma Configure_frame (cfg : ConfigureInput) (i : Impl) :
  let i' := fst (Configure cfg i) in
  cameraName i' = cameraName i /\ zoomChanged i' = zoomChanged i
  /\ zoomCommand i' = zoomCommand i /\ refHfov i' = refHfov i
  /\ goalHfov i' = goalHfov i /\ scene i' = scene i
  /\ camera i' = camera i
  /\ filter isFovSignal (snd (Configure cfg i)) = [].
Proof.
  unfold Configure.
  destruct (SensorValid cfg); simpl; [| auto 10].
  destruct (SensorName cfg); simpl; [| auto 10].
  destruct (parentModelValid cfg); simpl; [| auto 10].
  destruct (worldValid cfg); simpl; [| auto 10].
  destruct (sdf_max_zoom cfg), (sdf_slew_rate cfg); simpl; auto 10.
Qed.

(** ** A plugin that never receives a command *)

Lemma step_uncommanded (e : event) (i : Impl) (ecm : EntityComponentManager) :
  isZoom e = false -> uncommanded i ->
  (forall c, cameraOf ecm = Some c ->
             Rabs (refHfov i - HorizontalFov c) < epsilon) ->
  uncommanded (fst (fst (step e (i, ecm))))
  /\ refHfov (fst (fst (step e (i, ecm)))) = refHfov i
  /\ snd (fst (step e (i, ecm))) = ecm
  /\ filter isFovSignal (snd (step e (i, ecm))) = [].
Proof.
  intros Hne [Hz Hg] Hcam. unfold uncommanded.
  destruct e as [cfg | info rend | name | z |]; simpl in *.
  - pose proof (Configure_frame cfg i) as [_ [Hz' [_ [Hr [Hg' [_ [_ Hl]]]]]]].
    destruct (Configure cfg i) as [i' log]. simpl in *.
    rewrite Hz', Hg', Hr. auto.
  - destruct (PreUpdate_cases info rend i ecm)
      as [[_ H] | [[_ [_ H]] | [[_ [_ [_ H]]] | [H | H]]]].
    + rewrite H. simpl. auto.
    + rewrite H. simpl.
      pose proof (InitialiseCamera_frame rend i)
        as [_ [Hz' [_ [Hr [Hg' _]]]]].
      pose proof (InitialiseCamera_no_fov_signal rend i) as [Hl _].
      rewrite Hz', Hg', Hr. auto.
    + rewrite H. simpl. auto.
    + destruct H as [_ [_ [_ [_ H]]]].
      rewrite H, (resolveGoal_idle i Hz). simpl. auto.
    + destruct H as [cam [c [_ [_ [He H]]]]].
      rewrite H. unfold activeStep. rewrite (resolveGoal_idle i Hz). simpl.
      assert (Ha : goalAchieved (goalHfov i) c = true).
      { apply goalAchieved_true. rewrite Hg. now apply Hcam. }
      rewrite Ha. simpl. auto.
  - unfold PostUpdate. destruct (negb _); simpl; auto.
  - discriminate.
  - auto.
Qed.

Lemma run_uncommanded (es : list event) (i : Impl)
  (ecm : EntityComponentManager) :
  forallb (fun e => negb (isZoom e)) es = true -> uncommanded i ->
  (forall c, cameraOf ecm = Some c ->
             Rabs (refHfov i - HorizontalFov c) < epsilon) ->
  uncommanded (fst (fst (run es (i, ecm))))
  /\ refHfov (fst (fst (run es (i, ecm)))) = refHfov i
  /\ snd (fst (run es (i, ecm))) = ecm
  /\ filter isFovSignal (snd (run es (i, ecm))) = [].
Proof.
  revert i. induction es as [| e es IH]; intros i Hall Hu Hcam.
  - simpl. auto.
  - simpl in Hall. apply andb_true_iff in Hall as [He Hall].
    apply negb_true_iff in He.
    pose proof (step_uncommanded e i ecm He Hu Hcam) as [Hu1 [Hr1 [He1 Hl1]]].
    rewrite run_cons.
    destruct (step e (i, ecm)) as [[i1 ecm1] log1]. simpl in *. subst ecm1.
    rewrite <- Hr1 in Hcam.
    destruct (IH i1 Hall Hu1 Hcam) as [Hu2 [Hr2 [He2 Hl2]]].
    rewrite filter_app, Hl1, Hl2, Hr2, Hr1. auto.
Qed.

(** C9, as the code has it.  From construction, over any sequence of
    configuration, update and teardown events that contains no zoom
    command, when the camera's field of view is within the machine
    epsilon of the reference field of view (2.0 rad), or the camera
    attributes are not found, the entity-component manager is left as
    it is, so the field of view stays where it was, and no field of
    view is written or signalled. *)
Theorem no_command_no_write
  (es : list event) (ecm : EntityComponentManager) :
  forallb (fun e => negb (isZoom e)) es = true ->
  (forall c, cameraOf ecm = Some c ->
             Rabs (refHfov Impl_default - HorizontalFov c) < epsilon) ->
  goalHfov (implAfter es (Impl_default, ecm)) = 2
  /\ refHfov (implAfter es (Impl_default, ecm)) = 2
  /\ snd (fst (run es (Impl_default, ecm))) = ecm
  /\ cameraAfter es (Impl_default, ecm) = cameraOf ecm
  /\ filter isFovSignal (logOf es (Impl_default, ecm)) = []
  /\ changedCount (logOf es (Impl_default, ecm)) = 0%nat.
Proof.
  intros Hall Hcam.
  assert (Hu : uncommanded Impl_default) by (split; reflexivity).
  destruct (run_uncommanded es Impl_default ecm Hall Hu Hcam)
    as [[_ Hg] [Hr [He Hl]]].
  unfold implAfter, cameraAfter, logOf. rewrite Hg, Hr, He.
  repeat split; try reflexivity; try assumption.
  unfold changedCount.
  assert (Hsub : forall l, filter isFovSignal l = [] ->
                           filter isSetChanged l = []).
  { induction l as [| e l IH]; [reflexivity |].
    simpl. destruct e; simpl; try discriminate; exact IH. }
  now rewrite (Hsub _ Hl).
Qed.

(** ** After the render teardown *)

Lemma OnRenderTeardown_disabled (i : Impl) :
  disabled (fst (OnRenderTeardown i)).
Proof. split; reflexivity. Qed.

Lemma step_disabled (e : event) (i : Impl) (ecm : EntityComponentManager) :
  isConfigure e = false -> disabled i ->
  disabled (fst (fst (step e (i, ecm))))
  /\ snd (fst (step e (i, ecm))) = ecm
  /\ filter isFovSignal (snd (step e (i, ecm))) = [].
Proof.
  intros Hne [Hv Hc]. unfold disabled.
  destruct e as [cfg | info rend | name | z |]; simpl in *.
  - discriminate.
  - rewrite (PreUpdate_invalid info rend i ecm Hv). simpl. auto.
  - unfold PostUpdate. destruct (negb _); simpl; auto.
  - auto.
  - auto.
Qed.

Lemma run_disabled (es : list event) (i : Impl) (ecm : EntityComponentManager) :
  forallb (fun e => negb (isConfigure e)) es = true -> disabled i ->
  disabled (fst (fst (run es (i, ecm))))
  /\ snd (fst (run es (i, ecm))) = ecm
  /\ filter isFovSignal (snd (run es (i, ecm))) = [].
Proof.
  revert i. induction es as [| e es IH]; intros i Hall Hd.
  - simpl. auto.
  - simpl in Hall. apply andb_true_iff in Hall as [He Hall].
    apply negb_true_iff in He.
    pose proof (step_disabled e i ecm He Hd) as [Hd1 [He1 Hl1]].
    rewrite run_cons.
    destruct (step e (i, ecm)) as [[i1 ecm1] log1]. simpl in *. subst ecm1.
    destruct (IH i1 Hall Hd1) as [Hd2 [He2 Hl2]].
    rewrite filter_app, Hl1, Hl2. auto.
Qed.

Lemma preUpdates_not_configure (ts : list (UpdateInfo * Rendering)) :
  forallb (fun e => negb (isConfigure e)) (preUpdates ts) = true.
Proof.
  induction ts as [| t ts IH]; [reflexivity | exact IH].
Qed.

(** C5, as the code has it.  The render teardown releases the
    rendering camera and the scene and marks the plugin as not
    configured.  From then on, over any sequence of update, command
    and teardown events (anything but a new [Configure]), every step
    returns at its first guard: the plugin stays unconfigured and
    without a camera, the entity-component manager is left as it is
    and no field of view is written or signalled. *)
Theorem teardown_is_final
  (i : Impl) (ecm : EntityComponentManager) (es : list event) :
  forallb (fun e => negb (isConfigure e)) es = true ->
  let i0 := fst (OnRenderTeardown i) in
  camera i0 = None /\ scene i0 = None /\ isValidConfig i0 = false
  /\ isValidConfig (implAfter es (i0, ecm)) = false
  /\ camera (implAfter es (i0, ecm)) = None
  /\ snd (fst (run es (i0, ecm))) = ecm
  /\ filter isFovSignal (logOf es (i0, ecm)) = [].
Proof.
  intros Hall i0.
  destruct (run_disabled es i0 ecm Hall (OnRenderTeardown_disabled i))
    as [[Hv Hc] [He Hl]].
  unfold implAfter, logOf. repeat split; assumption.
Qed.

(** The lens focal length is read by every step and written by none. *)
Lemma PreUpdate_keeps_focal_length (info : UpdateInfo) (rend : Rendering)
  (i : Impl) (ecm : EntityComponentManager) (c c' : SdfCamera) :
  cameraOf ecm = Some c ->
  cameraOf (snd (fst (PreUpdate info rend i ecm))) = Some c' ->
  LensFocalLength c' = LensFocalLength c.
Proof.
  intros He He'.
  destruct (PreUpdate_cases info rend i ecm)
    as [[_ H] | [[_ [_ H]] | [[_ [_ [_ H]]] | [H | H]]]].
  - rewrite H in He'. simpl in He'. congruence.
  - rewrite H in He'. simpl in He'. congruence.
  - rewrite H in He'. simpl in He'. congruence.
  - destruct H as [_ [_ [_ [_ H]]]]. rewrite H in He'. simpl in He'.
    congruence.
  - destruct H as [cam [c0 [_ [_ [He0 H]]]]]. rewrite H in He'.
    unfold activeStep in He'.
    assert (c0 = c) by congruence. subst c0.
    destruct (goalAchieved _ c); simpl in He'.
    + congruence.
    + injection He' as <-. reflexivity.
Qed.

Lemma slewFocalLength_not_finite (rate : xdouble) (d : Z) (cur goal : R) :
  isfinite rate = false -> slewFocalLength rate d cur goal = goal.
Proof.
  destruct rate; [discriminate | reflexivity].
Qed.

(** * The concrete installation *)

Lemma exampleCamera_lens :
  0 < LensFocalLength exampleCamera /\ 0 < HorizontalFov exampleCamera < PI.
Proof.
  unfold exampleCamera. simpl. pose proof two_lt_PI. lra.
Qed.

Lemma cameraOf_example (c : SdfCamera) : cameraOf (ecmOf c) = Some c.
Proof. reflexivity. Qed.

(** The command 2.0 resolves to a goal of 1.0 rad. *)
Lemma example_goal (rate : option xdouble) :
  goalHfov (steadyImpl rate 2) = 1.
Proof.
  unfold steadyImpl, commandedImpl.
  destruct rate; rewrite resolveGoal_goal; simpl;
    rewrite clamp_id by (unfold minZoom; lra); lra.
Qed.

(** The command 20.0 is clamped to the default maximum zoom. *)
Lemma example_clamp : clamp 20 minZoom 10 = 10.
Proof.
  unfold clamp, minZoom.
  destruct (Rlt_dec 20 1); [lra |].
  destruct (Rlt_dec 10 20); [reflexivity | lra].
Qed.

Lemma example_off_goal : goalAchieved 1 exampleCamera = false.
Proof.
  apply goalAchieved_false. unfold exampleCamera. simpl.
  pose proof epsilon_lt_1.
  unfold Rabs. destruct (Rcase_abs (1 - 2)); lra.
Qed.

Lemma narrow_off_goal : goalAchieved 2 narrowCamera = false.
Proof.
  apply goalAchieved_false. unfold narrowCamera. simpl.
  pose proof epsilon_lt_1.
  unfold Rabs. destruct (Rcase_abs (2 - 1)); lra.
Qed.

Lemma optics_round_trip_witness :
  (0 < 1 /\ 0 < 2 < PI) /\ FocalLengthToFov (SensorWidth 1 2) 1 = 2.
Proof.
  assert (H2 : 0 < 2 < PI) by (pose proof two_lt_PI; lra).
  split; [split; [exact Rlt_0_1 | exact H2] |].
  exact (proj1 (optics_round_trip 1 2 Rlt_0_1 H2)).
Defined.





Lemma acquisition_step_witness :
  (isValidConfig configuredImpl = true /\ camera configuredImpl = None)
  /\ camera (fst (fst (PreUpdate exampleInfo exampleRendering
                         configuredImpl (ecmOf exampleCamera))))
     = Some 7%nat
  /\ snd (fst (PreUpdate exampleInfo exampleRendering
                 configuredImpl (ecmOf exampleCamera)))
     = ecmOf exampleCamera
  /\ zoomChanged (fst (fst (PreUpdate exampleInfo exampleRendering
                              configuredImpl (ecmOf exampleCamera))))
     = true
  /\ filter isFovSignal
       (snd (PreUpdate exampleInfo exampleRendering
               configuredImpl (ecmOf exampleCamera))) = []
  /\ goalHfov
       (fst (fst (PreUpdate halfSecond exampleRendering
                    (fst (fst (PreUpdate exampleInfo exampleRendering
                                 configuredImpl (ecmOf exampleCamera))))
                    (ecmOf exampleCamera))))
     = 1.
Proof.
  destruct (acquisition_step exampleInfo exampleRendering configuredImpl
              (ecmOf exampleCamera) eq_refl eq_refl)
    as [_ [He [Hz [_ [_ [Hf [_ Hnext]]]]]]].
  split; [split; reflexivity |].
  split; [reflexivity |].
  split; [exact He |].
  split; [exact Hz |].
  split; [exact Hf |].
  assert (Hcam : camera (fst (fst (PreUpdate exampleInfo exampleRendering
                                     configuredImpl (ecmOf exampleCamera))))
                 <> None) by discriminate.
  assert (Hcomp : CameraComponent (ecmOf exampleCamera) <> None)
    by discriminate.
  destruct (Hnext Hcam eq_refl halfSecond exampleRendering
              (ecmOf exampleCamera) Hcomp) as [Hg _].
  rewrite Hg.
  change (zoomCommand configuredImpl) with 2.
  change (maxZoom configuredImpl) with 10.
  change (refHfov configuredImpl) with 2.
  rewrite clamp_id by (unfold minZoom; lra). lra.
Defined.



Lemma zero_rate_or_duration_witness :
  (isValidConfig (commandedImpl (Some (Finite 0)) 2) = true
   /\ camera (commandedImpl (Some (Finite 0)) 2) = Some 7%nat
   /\ cameraOf (ecmOf exampleCamera) = Some exampleCamera
   /\ slewRate (commandedImpl (Some (Finite 0)) 2) = Finite 0
   /\ (dt halfSecond = 0%Z \/ 0 = 0))
  /\ cameraAfter (ticks 3 halfSecond exampleRendering)
       (commandedImpl (Some (Finite 0)) 2, ecmOf exampleCamera)
     = Some exampleCamera
  /\ goalAchieved
       (goalHfov (implAfter (ticks 3 halfSecond exampleRendering)
                    (commandedImpl (Some (Finite 0)) 2, ecmOf exampleCamera)))
       exampleCamera = false.
Proof.
  pose proof exampleCamera_lens as [Hf Hh].
  split; [repeat split; try reflexivity; now right |].
  destruct (zero_rate_or_duration halfSecond exampleRendering
              (commandedImpl (Some (Finite 0)) 2) (ecmOf exampleCamera)
              7%nat exampleCamera 0 eq_refl eq_refl eq_refl eq_refl
              (or_intror eq_refl)) as [_ [Hstill _]].
  destruct (Hstill Hf Hh) as [_ Hnever].
  fold (steadyImpl (Some (Finite 0)) 2) in Hnever.
  rewrite (example_goal (Some (Finite 0))) in Hnever.
  destruct (Hnever example_off_goal 2%nat) as [Hoff Hcam].
  split; [exact Hcam | exact Hoff].
Defined.

(** C7, counterexample.  With the default slew rate, which is
    infinite, a step of duration zero away from the goal takes the
    goal focal length as the new focal length and moves the camera to
    the goal. *)
Lemma zero_duration_instant_moves :
  dt zeroDuration = 0%Z
  /\ newFocalLength (slewRate (commandedImpl None 2)) (dt zeroDuration)
       (goalHfov (steadyImpl None 2)) exampleCamera
     <> curFocalLength exampleCamera
  /\ cameraOf (snd (fst (PreUpdate zeroDuration exampleRendering
                           (commandedImpl None 2) (ecmOf exampleCamera))))
     = Some narrowCamera.
Proof.
  assert (H2 : 0 < 2 < PI) by (pose proof two_lt_PI; lra).
  assert (H1 : 0 < 1 < PI) by (pose proof two_lt_PI; lra).
  split; [reflexivity |]. split.
  - rewrite (example_goal None).
    change (slewRate (commandedImpl None 2)) with NonFinite.
    unfold newFocalLength, slewFocalLength, curFocalLength, exampleCamera.
    rewrite (lens_goalFocalLength 1 1 2 H1). simpl.
    pose proof (tan_half_pos 1 H1) as Hpos.
    pose proof (tan_half_lt 1 2 H1 H2 ltac:(lra)) as Hlt.
    intros Heq.
    assert (tan (2 / 2) = tan (1 / 2)).
    { apply (Rmult_eq_compat_r (tan (1 / 2))) in Heq.
      replace (1 * tan (2 / 2) / tan (1 / 2) * tan (1 / 2))
        with (tan (2 / 2)) in Heq by (field; lra).
      lra. }
    lra.
  - rewrite (PreUpdate_active zeroDuration exampleRendering
               (commandedImpl None 2) (ecmOf exampleCamera) 7%nat
               exampleCamera eq_refl eq_refl eq_refl).
    unfold activeStep. fold (steadyImpl None 2).
    rewrite (example_goal None), example_off_goal.
    change (slewRate (steadyImpl None 2)) with NonFinite.
    unfold exampleCamera.
    rewrite (instant_newHfov (dt zeroDuration) 1 1 2 Rlt_0_1 H1 H2).
    reflexivity.
Qed.

Lemma no_command_no_write_witness :
  (forallb (fun e => negb (isZoom e))
     (startup None ++ ticks 5 exampleInfo exampleRendering) = true
   /\ (forall c', cameraOf (ecmOf exampleCamera) = Some c' ->
                  Rabs (refHfov Impl_default - HorizontalFov c') < epsilon))
  /\ cameraAfter (startup None ++ ticks 5 exampleInfo exampleRendering)
       (Impl_default, ecmOf exampleCamera)
     = Some exampleCamera
  /\ changedCount
       (logOf (startup None ++ ticks 5 exampleInfo exampleRendering)
          (Impl_default, ecmOf exampleCamera))
     = 0%nat.
Proof.
  assert (Hcam : forall c', cameraOf (ecmOf exampleCamera) = Some c' ->
                   Rabs (refHfov Impl_default - HorizontalFov c') < epsilon).
  { intros c' H. injection H as <-. simpl.
    replace (2 - 2) with 0 by ring. rewrite Rabs_R0. exact epsilon_pos. }
  split; [split; [reflexivity | exact Hcam] |].
  destruct (no_command_no_write
              (startup None ++ ticks 5 exampleInfo exampleRendering)
              (ecmOf exampleCamera) eq_refl Hcam)
    as [_ [_ [_ [Hc [_ Hn]]]]].
  split; [exact Hc | exact Hn].
Defined.

(** C9, counterexample.  A camera whose field of view is 1.0 rad: the
    plugin is configured and acquires its rendering camera, no zoom
    command is ever sent, and the first step after the acquisition
    writes and signals a field of view of 2.0 rad. *)
Lemma idle_plugin_writes :
  forallb (fun e => negb (isZoom e))
    (startup None ++ [EvPreUpdate exampleInfo exampleRendering]) = true
  /\ cameraAfter (startup None ++ [EvPreUpdate exampleInfo exampleRendering])
       (Impl_default, ecmOf narrowCamera)
     = Some exampleCamera
  /\ logOf (startup None ++ [EvPreUpdate exampleInfo exampleRendering])
       (Impl_default, ecmOf narrowCamera)
     = [FovWritten 2; SetChanged; SetHFOV 7%nat 2].
Proof.
  assert (H2 : 0 < 2 < PI) by (pose proof two_lt_PI; lra).
  assert (H1 : 0 < 1 < PI) by (pose proof two_lt_PI; lra).
  assert (Hstep : PreUpdate exampleInfo exampleRendering
                    (exampleImpl None narrowCamera) (ecmOf narrowCamera)
                  = (exampleImpl None narrowCamera, ecmOf exampleCamera,
                     [FovWritten 2; SetChanged; SetHFOV 7%nat 2])).
  { rewrite (PreUpdate_active exampleInfo exampleRendering
               (exampleImpl None narrowCamera) (ecmOf narrowCamera) 7%nat
               narrowCamera eq_refl eq_refl eq_refl).
    unfold activeStep.
    rewrite (resolveGoal_idle (exampleImpl None narrowCamera) eq_refl).
    cbn [fst snd].
    change (goalHfov (exampleImpl None narrowCamera)) with 2.
    change (slewRate (exampleImpl None narrowCamera)) with NonFinite.
    rewrite narrow_off_goal. unfold narrowCamera.
    rewrite (instant_newHfov (dt exampleInfo) 1 2 1 Rlt_0_1 H2 H1).
    reflexivity. }
  split; [reflexivity |].
  unfold cameraAfter, logOf.
  rewrite run_app, run_startup. cbn [fst snd].
  rewrite run_cons. cbn [step run fst snd].
  rewrite Hstep. cbn [fst snd app]. split; reflexivity.
Qed.

Lemma teardown_is_final_witness :
  forallb (fun e => negb (isConfigure e))
    (EvZoom 3 :: ticks 4 exampleInfo exampleRendering) = true
  /\ camera (implAfter (EvZoom 3 :: ticks 4 exampleInfo exampleRendering)
               (fst (OnRenderTeardown (commandedImpl None 2)),
                ecmOf exampleCamera))
     = None
  /\ filter isFovSignal
       (logOf (EvZoom 3 :: ticks 4 exampleInfo exampleRendering)
          (fst (OnRenderTeardown (commandedImpl None 2)),
           ecmOf exampleCamera))
     = [].
Proof.
  destruct (teardown_is_final (commandedImpl None 2) (ecmOf exampleCamera)
              (EvZoom 3 :: ticks 4 exampleInfo exampleRendering) eq_refl)
    as [_ [_ [_ [_ [Hc [_ Hl]]]]]].
  split; [reflexivity |]. split; [exact Hc | exact Hl].
Defined.

(** C5, counterexample.  A plugin that holds its rendering camera and
    is about to publish a field of view receives the teardown event;
    whatever steps follow, with whatever renderer, it never holds a
    camera again and never writes a field of view. *)
Lemma teardown_no_reacquisition :
  reachesPublish (commandedImpl None 2) (ecmOf exampleCamera) = true
  /\ ~ (exists ts : list (UpdateInfo * Rendering),
          camera (implAfter (EvRenderTeardown :: preUpdates ts)
                    (commandedImpl None 2, ecmOf exampleCamera)) <> None
          \/ filter isFovSignal
               (logOf (EvRenderTeardown :: preUpdates ts)
                  (commandedImpl None 2, ecmOf exampleCamera)) <> []).
Proof.
  split.
  - unfold reachesPublish. rewrite cameraOf_example.
    fold (steadyImpl None 2). rewrite (example_goal None), example_off_goal.
    reflexivity.
  - set (i := commandedImpl None 2). set (c := exampleCamera).
    intros [ts H]. unfold implAfter, logOf in H.
    rewrite run_cons in H. cbn [step fst snd] in H.
    destruct (run_disabled (preUpdates ts) (fst (OnRenderTeardown i)) (ecmOf c)
                (preUpdates_not_configure ts) (OnRenderTeardown_disabled i))
      as [[_ Hc] [_ Hl]].
    rewrite filter_app in H. destruct H as [H | H].
    + apply H. exact Hc.
    + apply H.
      change (filter isFovSignal [DbgDisabled]
              ++ filter isFovSignal
                   (snd (run (preUpdates ts)
                           (fst (OnRenderTeardown i), ecmOf c))) = []).
      rewrite Hl. reflexivity.
Qed.

(** ** The rate limit over two steps *)

Lemma sqrt3_facts : sqrt 3 * sqrt 3 = 3 /\ 1 < sqrt 3 < 2.
Proof.
  assert (Hs : sqrt 3 * sqrt 3 = 3) by (apply sqrt_sqrt; lra).
  pose proof (sqrt_pos 3) as Hp.
  split; [exact Hs |]. split; nra.
Qed.

Lemma tan_wide_half : tan (2 * PI / 3 / 2) = sqrt 3.
Proof.
  replace (2 * PI / 3 / 2) with (PI / 3) by field. exact tan_PI3.
Qed.

Lemma tan_goal_half : tan (PI / 3 / 2) = / sqrt 3.
Proof.
  pose proof sqrt3_facts as [_ [H1 _]].
  replace (PI / 3 / 2) with (PI / 6) by field. rewrite tan_PI6.
  field. lra.
Qed.

Lemma tan_square_half : tan (PI / 2 / 2) = 1.
Proof.
  replace (PI / 2 / 2) with (PI / 4) by field. exact tan_PI4.
Qed.

Lemma third_of_PI : 0 < PI / 3 < PI.
Proof. pose proof PI_RGT_0. lra. Qed.

Lemma seconds_oneSecond : seconds (dt oneSecond) = 1.
Proof. unfold oneSecond, seconds. simpl. field. Qed.

Lemma wide_goalFocalLength : goalFocalLength (PI / 3) wideCamera = 3.
Proof.
  pose proof sqrt3_facts as [Hs [H1 _]].
  unfold wideCamera.
  rewrite (lens_goalFocalLength 1 (PI / 3) (2 * PI / 3) third_of_PI).
  rewrite tan_wide_half, tan_goal_half.
  replace 3 with (sqrt 3 * sqrt 3) at 3 by exact Hs. field. lra.
Qed.

Lemma square_goalFocalLength : goalFocalLength (PI / 3) squareCamera = sqrt 3.
Proof.
  pose proof sqrt3_facts as [Hs [H1 _]].
  unfold squareCamera.
  rewrite (lens_goalFocalLength 1 (PI / 3) (PI / 2) third_of_PI).
  rewrite tan_square_half, tan_goal_half. field. lra.
Qed.

Lemma wide_newFocalLength :
  newFocalLength slowRate (dt oneSecond) (PI / 3) wideCamera = sqrt 3.
Proof.
  pose proof sqrt3_facts as [Hs [H1 H2]].
  unfold newFocalLength. rewrite wide_goalFocalLength.
  unfold slowRate, slewFocalLength. rewrite seconds_oneSecond.
  unfold curFocalLength, wideCamera, min, abs. simpl.
  rewrite (Rabs_left (1 - 3)) by lra.
  destruct (Rlt_dec (- (1 - 3)) ((sqrt 3 - 1) * 1)); [lra |].
  destruct (Rgt_dec 3 1) as [| Hn]; [lra | exfalso; apply Hn; lra].
Qed.

Lemma square_newFocalLength :
  newFocalLength slowRate (dt oneSecond) (PI / 3) squareCamera = sqrt 3.
Proof.
  pose proof sqrt3_facts as [Hs [H1 H2]].
  unfold newFocalLength. rewrite square_goalFocalLength.
  unfold slowRate, slewFocalLength. rewrite seconds_oneSecond.
  unfold curFocalLength, squareCamera, min, abs. simpl.
  rewrite (Rabs_left (1 - sqrt 3)) by lra.
  destruct (Rlt_dec (- (1 - sqrt 3)) ((sqrt 3 - 1) * 1)); [lra |].
  destruct (Rgt_dec (sqrt 3) 1) as [| Hn]; [lra | exfalso; apply Hn; lra].
Qed.

Lemma wide_newHfov :
  newHfov slowRate (dt oneSecond) (PI / 3) wideCamera = PI / 2.
Proof.
  pose proof sqrt3_facts as [Hs [H1 H2]].
  unfold newHfov. rewrite wide_newFocalLength.
  rewrite FocalLengthToFov_pos by lra.
  unfold sensorWidth, SensorWidth, curFocalLength, oldHfov, wideCamera. simpl.
  rewrite tan_wide_half.
  replace (2 * sqrt 3 * 1 / (2 * sqrt 3)) with 1 by (field; lra).
  rewrite <- tan_square_half at 1.
  apply atan_tan_half. pose proof PI_RGT_0. lra.
Qed.

Lemma square_newHfov :
  newHfov slowRate (dt oneSecond) (PI / 3) squareCamera = PI / 3.
Proof.
  pose proof sqrt3_facts as [Hs [H1 H2]].
  unfold newHfov. rewrite square_newFocalLength.
  rewrite FocalLengthToFov_pos by lra.
  unfold sensorWidth, SensorWidth, curFocalLength, oldHfov, squareCamera. simpl.
  rewrite tan_square_half.
  replace (2 * 1 * 1 / (2 * sqrt 3)) with (/ sqrt 3) by (field; lra).
  rewrite <- tan_goal_half.
  exact (atan_tan_half (PI / 3) third_of_PI).
Qed.

Lemma wide_off_goal : goalAchieved (PI / 3) wideCamera = false.
Proof.
  apply goalAchieved_false. unfold wideCamera. simpl.
  pose proof epsilon_small. pose proof two_lt_PI.
  rewrite (Rabs_left (PI / 3 - 2 * PI / 3)) by lra. lra.
Qed.

Lemma square_off_goal : goalAchieved (PI / 3) squareCamera = false.
Proof.
  apply goalAchieved_false. unfold squareCamera. simpl.
  pose proof epsilon_small. pose proof two_lt_PI.
  rewrite (Rabs_left (PI / 3 - PI / 2)) by lra. lra.
Qed.

Lemma wide_goal : goalHfov (fst (resolveGoal wideImpl)) = PI / 3.
Proof.
  rewrite resolveGoal_goal.
  change (zoomChanged wideImpl) with true.
  change (zoomCommand wideImpl) with (6 / PI).
  change (maxZoom wideImpl) with 10.
  change (refHfov wideImpl) with 2.
  pose proof two_lt_PI as Hp. pose proof PI_4 as H4.
  rewrite clamp_id.
  - field. lra.
  - unfold minZoom. split.
    + apply (Rmult_le_reg_r PI); [lra |].
      replace (6 / PI * PI) with 6 by (field; lra). lra.
    + apply (Rmult_le_reg_r PI); [lra |].
      replace (6 / PI * PI) with 6 by (field; lra). lra.
Qed.

Lemma wide_tick : tickCamera slowRate (dt oneSecond) (PI / 3) wideCamera
                  = squareCamera.
Proof.
  unfold tickCamera. rewrite wide_off_goal, wide_newHfov. reflexivity.
Qed.

Lemma square_tick : tickCamera slowRate (dt oneSecond) (PI / 3) squareCamera
                    = mkSdfCamera (PI / 3) 1.
Proof.
  unfold tickCamera. rewrite square_off_goal, square_newHfov. reflexivity.
Qed.

(** C1.  The rate limit holds within a step and is lost between steps,
    because the new focal length is never stored: line 478 writes the
    field of view only, and the next step starts again from the lens
    focal length it read before and from a sensor width recomputed for
    the field of view just written.  On a camera 2 PI / 3 wide behind a
    lens of 1 m, with a slew rate of sqrt 3 - 1 m/s, steps of one
    second and the goal PI / 3, whose goal focal length is 3 m: the
    first step computes the focal length sqrt 3, which is within the
    limit, and writes a field of view of PI / 2; the camera still
    carries the focal length 1; the second step computes sqrt 3 again
    and writes the goal.  The focal length that the camera's field of
    view stands for on the sensor of the first step goes 1, sqrt 3, 3:
    the second step moves it by more than the limit, and the camera is
    at the goal after two steps although two steps within the limit
    cannot cover the distance.  The sensor width, which line 445 expects
    to be the same in every step, is not. *)
Theorem rate_limit_is_lost_between_steps :
  slewRate wideImpl = Finite (sqrt 3 - 1)
  /\ (sqrt 3 - 1) * seconds (dt oneSecond) = sqrt 3 - 1
  /\ goalHfov (implAfter (ticks 1 oneSecond exampleRendering) wideStart)
     = PI / 3
  /\ curFocalLength wideCamera = 1
  /\ goalFocalLength (PI / 3) wideCamera = 3
  /\ newFocalLength slowRate (dt oneSecond) (PI / 3) wideCamera = sqrt 3
  /\ Rabs (newFocalLength slowRate (dt oneSecond) (PI / 3) wideCamera
           - curFocalLength wideCamera)
     <= (sqrt 3 - 1) * seconds (dt oneSecond)
  /\ cameraAfter (ticks 1 oneSecond exampleRendering) wideStart
     = Some squareCamera
  /\ curFocalLength squareCamera = 1
  /\ newFocalLength slowRate (dt oneSecond) (PI / 3) squareCamera = sqrt 3
  /\ cameraAfter (ticks 2 oneSecond exampleRendering) wideStart
     = Some (mkSdfCamera (PI / 3) 1)
  /\ focalLengthShown (sensorWidth wideCamera) wideCamera = 1
  /\ focalLengthShown (sensorWidth wideCamera) squareCamera = sqrt 3
  /\ focalLengthShown (sensorWidth wideCamera) (mkSdfCamera (PI / 3) 1) = 3
  /\ (sqrt 3 - 1) * seconds (dt oneSecond)
     < focalLengthShown (sensorWidth wideCamera) (mkSdfCamera (PI / 3) 1)
       - focalLengthShown (sensorWidth wideCamera) squareCamera
  /\ 2 * ((sqrt 3 - 1) * seconds (dt oneSecond))
     < goalFocalLength (PI / 3) wideCamera - curFocalLength wideCamera
  /\ sensorWidth squareCamera <> sensorWidth wideCamera.
Proof.
  pose proof sqrt3_facts as [Hs [H1 H2]].
  assert (Hw : sensorWidth wideCamera = 2 * sqrt 3).
  { unfold sensorWidth, SensorWidth, curFocalLength, oldHfov, wideCamera.
    simpl. rewrite tan_wide_half. ring. }
  assert (Hq : sensorWidth squareCamera = 2).
  { unfold sensorWidth, SensorWidth, curFocalLength, oldHfov, squareCamera.
    simpl. rewrite tan_square_half. ring. }
  assert (Hrun : forall n,
            fst (run (ticks (S n) oneSecond exampleRendering) wideStart)
            = (fst (resolveGoal wideImpl),
               ecmOf (iterCamera (S n) slowRate (dt oneSecond) (PI / 3)
                        wideCamera))).
  { intros n. unfold wideStart.
    rewrite (run_ticks_commanded n oneSecond exampleRendering wideImpl
               (ecmOf wideCamera) 7%nat wideCamera eq_refl eq_refl eq_refl).
    now rewrite wide_goal. }
  assert (Hf1 : focalLengthShown (sensorWidth wideCamera) wideCamera = 1).
  { unfold focalLengthShown, FovToFocalLength. rewrite Hw.
    unfold wideCamera. simpl. rewrite tan_wide_half. field. lra. }
  assert (Hf2 : focalLengthShown (sensorWidth wideCamera) squareCamera
                = sqrt 3).
  { unfold focalLengthShown, FovToFocalLength. rewrite Hw.
    unfold squareCamera. simpl. rewrite tan_square_half. field. }
  assert (Hf3 : focalLengthShown (sensorWidth wideCamera)
                  (mkSdfCamera (PI / 3) 1) = 3).
  { unfold focalLengthShown, FovToFocalLength. rewrite Hw. simpl.
    rewrite tan_goal_half. rewrite <- Hs at 3. field. lra. }
  rewrite seconds_oneSecond, wide_goalFocalLength, wide_newFocalLength,
    square_newFocalLength, Hf1, Hf2, Hf3, Hw, Hq.
  unfold implAfter, cameraAfter. rewrite !Hrun. cbn [fst snd iterCamera].
  rewrite wide_tick, square_tick.
  change (curFocalLength wideCamera) with 1.
  change (curFocalLength squareCamera) with 1.
  rewrite (Rabs_pos_eq (sqrt 3 - 1)) by lra.
  repeat split; try reflexivity; try lra.
  exact wide_goal.
Qed.

(** * Further properties of the source *)

(** ** Camera acquisition *)

Lemma InitialiseCamera_outcome (r : Rendering) (i : Impl) :
  camera i = None ->
  (loadedEngines_empty r = true /\ InitialiseCamera r i = (i, []))
  \/ (loadedEngines_empty r = false /\ sceneReady r i = false
      /\ InitialiseCamera r i = (set_scene (sceneInUse r i) i, [WarnNoScene]))
  \/ (loadedEngines_empty r = false /\ sceneReady r i = true
      /\ sensorLookup r i = None
      /\ InitialiseCamera r i =
         (set_scene (sceneInUse r i) i, [ErrSensorNotFound (cameraName i)]))
  \/ (loadedEngines_empty r = false /\ sceneReady r i = true
      /\ sensorLookup r i = Some RenderOther
      /\ InitialiseCamera r i =
         (set_scene (sceneInUse r i) i, [ErrNotACamera (cameraName i)]))
  \/ (exists cam,
        loadedEngines_empty r = false /\ sceneReady r i = true
        /\ sensorLookup r i = Some (RenderCamera cam)
        /\ InitialiseCamera r i =
           (set_camera (Some cam) (set_scene (sceneInUse r i) i), [])).
Proof.
  intros Hc. unfold InitialiseCamera, sceneReady, sensorLookup, sceneInUse.
  destruct (loadedEngines_empty r); [left; auto |]. right.
  destruct i as [nm zc zv rf gl cz mz sr vc sc cm]. simpl in *. subst cm.
  destruct sc as [sp |]; simpl.
  - destruct (IsInitialized (deref r sp)); simpl; [| left; auto].
    destruct (Nat.eqb (SensorCount (deref r sp)) 0); simpl; [left; auto |].
    right. destruct (SensorByName (deref r sp) nm) as [[cam |] |]; simpl.
    + right. right. exists cam. auto.
    + right. left. auto.
    + left. auto.
  - destruct (sceneFromFirstRenderEngine r) as [sp |]; simpl; [| left; auto].
    destruct (IsInitialized (deref r sp)); simpl; [| left; auto].
    destruct (Nat.eqb (SensorCount (deref r sp)) 0); simpl; [left; auto |].
    right. destruct (SensorByName (deref r sp) nm) as [[cam |] |]; simpl.
    + right. right. exists cam. auto.
    + right. left. auto.
    + left. auto.
Qed.

(** X1.  A call of [InitialiseCamera] on a plugin without a rendering
    camera acquires the camera [cam] exactly when a render engine is
    loaded, the scene in use is initialised and has a sensor, and the
    scene's sensor of the plugin's camera name is the rendering camera
    [cam]; a successful call logs nothing and changes nothing but the
    scene and camera handles. *)
Theorem acquisition_succeeds_iff (r : Rendering) (i : Impl) (cam : CameraPtr) :
  camera i = None ->
  (camera (fst (InitialiseCamera r i)) = Some cam <->
   loadedEngines_empty r = false /\ sceneReady r i = true
   /\ sensorLookup r i = Some (RenderCamera cam))
  /\ (camera (fst (InitialiseCamera r i)) = Some cam ->
      InitialiseCamera r i =
      (set_camera (Some cam) (set_scene (sceneInUse r i) i), [])).
Proof.
  intros Hc.
  destruct (InitialiseCamera_outcome r i Hc)
    as [[He H] | [[He [Hs H]] | [[He [Hs [Hl H]]] | [[He [Hs [Hl H]]] | H]]]].
  - rewrite H. simpl. rewrite Hc. split; [split |]; intros; try discriminate.
    destruct H0 as [H0 _]. congruence.
  - rewrite H. simpl. rewrite Hc. split; [split |]; intros; try discriminate.
    destruct H0 as [_ [H0 _]]. congruence.
  - rewrite H. simpl. rewrite Hc. split; [split |]; intros; try discriminate.
    destruct H0 as [_ [_ H0]]. congruence.
  - rewrite H. simpl. rewrite Hc. split; [split |]; intros; try discriminate.
    destruct H0 as [_ [_ H0]]. congruence.
  - destruct H as [cam' [He [Hs [Hl H]]]]. rewrite H. simpl.
    split; [split |].
    + intros E. injection E as <-. auto.
    + intros [_ [_ E]]. congruence.
    + intros E. injection E as <-. reflexivity.
Qed.

Lemma acquisition_succeeds_iff_witness :
  camera configuredImpl = None
  /\ camera (fst (InitialiseCamera exampleRendering configuredImpl))
     = Some 7%nat.
Proof.
  split; [reflexivity |].
  apply (proj1 (acquisition_succeeds_iff exampleRendering configuredImpl
                  7%nat eq_refl)).
  repeat split.
Defined.

Lemma InitialiseCamera_not_ready (r : Rendering) (i : Impl) :
  camera i = None -> loadedEngines_empty r = false ->
  sceneReady r i = false ->
  InitialiseCamera r i = (set_scene (sceneInUse r i) i, [WarnNoScene]).
Proof.
  intros Hc He Hs.
  destruct (InitialiseCamera_outcome r i Hc)
    as [[He' _] | [[_ [_ H]] | [[_ [Hs' _]] | [[_ [Hs' _]] | H]]]];
    try congruence.
  destruct H as [cam [_ [Hs' _]]]. congruence.
Qed.

(** X2.  While a render engine is loaded but no scene is initialised
    with a sensor, every step of a configured plugin without a camera
    logs the warning again: [n] steps log it [n] times, leave the
    entity-component manager and the command latch as they are, and
    the plugin still holds no camera. *)
Theorem not_ready_warns_every_step
  (n : nat) (info : UpdateInfo) (r : Rendering) (i : Impl)
  (ecm : EntityComponentManager) :
  isValidConfig i = true -> camera i = None ->
  loadedEngines_empty r = false ->
  (forall sp, IsInitialized (deref r sp) = false
              \/ SensorCount (deref r sp) = 0%nat) ->
  logOf (ticks n info r) (i, ecm) = repeat WarnNoScene n
  /\ camera (implAfter (ticks n info r) (i, ecm)) = None
  /\ zoomChanged (implAfter (ticks n info r) (i, ecm)) = zoomChanged i
  /\ zoomCommand (implAfter (ticks n info r) (i, ecm)) = zoomCommand i
  /\ snd (fst (run (ticks n info r) (i, ecm))) = ecm.
Proof.
  intros Hv Hc He Hsc. unfold logOf, implAfter.
  assert (Hnr : forall j, sceneReady r j = false).
  { intros j. unfold sceneReady. destruct (sceneInUse r j) as [sp |];
      [| reflexivity].
    destruct (Hsc sp) as [H | H]; rewrite H; simpl;
      [reflexivity | apply andb_false_r]. }
  revert i Hv Hc. induction n as [| n IH]; intros i Hv Hc.
  - simpl. auto.
  - change (ticks (S n) info r) with (EvPreUpdate info r :: ticks n info r).
    rewrite run_cons. cbn [step].
    rewrite (PreUpdate_acquiring info r i ecm Hv Hc).
    rewrite (InitialiseCamera_not_ready r i Hc He (Hnr i)). cbn [fst snd].
    destruct (IH (set_scene (sceneInUse r i) i) Hv Hc)
      as [Hl [Hcam [Hz [Hzc Hecm]]]].
    rewrite Hl, Hcam, Hz, Hzc, Hecm. simpl. auto.
Qed.

Lemma not_ready_warns_every_step_witness :
  (isValidConfig configuredImpl = true /\ camera configuredImpl = None
   /\ loadedEngines_empty pendingRendering = false
   /\ (forall sp, IsInitialized (deref pendingRendering sp) = false
                  \/ SensorCount (deref pendingRendering sp) = 0%nat))
  /\ logOf (ticks 3 exampleInfo pendingRendering)
       (configuredImpl, ecmOf exampleCamera)
     = [WarnNoScene; WarnNoScene; WarnNoScene].
Proof.
  assert (H : forall sp, IsInitialized (deref pendingRendering sp) = false
                         \/ SensorCount (deref pendingRendering sp) = 0%nat)
    by (intros sp; left; reflexivity).
  split; [repeat split; exact H |].
  exact (proj1 (not_ready_warns_every_step 3 exampleInfo pendingRendering
                  configuredImpl (ecmOf exampleCamera)
                  eq_refl eq_refl eq_refl H)).
Defined.

(** X3.  Once the plugin holds a scene, [InitialiseCamera] works with
    that scene only: the scene of the first render engine is not
    consulted again, so two renderers that agree on whether an engine
    is loaded and on the held scene give the same result, and the held
    scene is still held afterwards. *)
Theorem held_scene_is_not_refreshed
  (r r' : Rendering) (i : Impl) (sp : ScenePtr) :
  scene i = Some sp ->
  loadedEngines_empty r = loadedEngines_empty r' ->
  deref r sp = deref r' sp ->
  InitialiseCamera r i = InitialiseCamera r' i
  /\ scene (fst (InitialiseCamera r i)) = Some sp.
Proof.
  intros Hs He Hd. unfold InitialiseCamera.
  rewrite <- He, Hs. simpl. rewrite Hs, <- Hd.
  split; [reflexivity |].
  destruct (loadedEngines_empty r); [exact Hs |].
  destruct (negb (IsInitialized (deref r sp)) || _); [exact Hs |].
  destruct (camera i); [exact Hs |].
  destruct (SensorByName (deref r sp) (cameraName i)) as [[cam |] |];
    exact Hs.
Qed.

Lemma held_scene_is_not_refreshed_witness :
  (scene (fst (InitialiseCamera pendingRendering configuredImpl)) = Some 0%nat
   /\ loadedEngines_empty pendingRendering
      = loadedEngines_empty
          (mkRendering false (Some 5%nat) (deref pendingRendering))
   /\ deref pendingRendering 0%nat
      = deref (mkRendering false (Some 5%nat) (deref pendingRendering)) 0%nat)
  /\ scene (fst (InitialiseCamera
                   (mkRendering false (Some 5%nat) (deref pendingRendering))
                   (fst (InitialiseCamera pendingRendering configuredImpl))))
     = Some 0%nat.
Proof.
  split; [repeat split |].
  destruct (held_scene_is_not_refreshed pendingRendering
              (mkRendering false (Some 5%nat) (deref pendingRendering))
              (fst (InitialiseCamera pendingRendering configuredImpl))
              0%nat eq_refl eq_refl eq_refl) as [Heq Hs].
  rewrite <- Heq. exact Hs.
Defined.

(** ** Configuration *)

Lemma Configure_outcome (c : ConfigureInput) (i : Impl) :
  (lookupsSucceed c = false /\ fst (Configure c i) = i
   /\ exists msg, snd (Configure c i) = [ErrConfigure msg])
  \/ (lookupsSucceed c = true
      /\ Configure c i =
         (set_isValidConfig true
            (match sdf_slew_rate c with
             | Some v => set_slewRate v
             | None => fun j => j
             end
               (match sdf_max_zoom c with
                | Some v => set_maxZoom v i
                | None => i
                end)), [])).
Proof.
  unfold lookupsSucceed, Configure.
  destruct (SensorValid c); simpl; [| left; eauto].
  destruct (SensorName c); simpl; [| left; eauto].
  destruct (parentModelValid c); simpl; [| left; eauto].
  destruct (worldValid c); simpl; [| left; eauto].
  right. split; [reflexivity |].
  destruct (sdf_slew_rate c); reflexivity.
Qed.

Lemma step_notConfigured (e : event) (i : Impl) (ecm : EntityComponentManager) :
  notConfigured e = true -> disabled i ->
  disabled (fst (fst (step e (i, ecm))))
  /\ snd (fst (step e (i, ecm))) = ecm
  /\ filter isFovSignal (snd (step e (i, ecm))) = [].
Proof.
  intros Hne Hd. destruct e as [cfg | info rend | name | z |];
    try (apply step_disabled; [reflexivity | exact Hd]).
  simpl in Hne. apply negb_true_iff in Hne.
  destruct (Configure_outcome cfg i) as [[_ [Hi [msg Hl]]] | [Hs _]];
    [| congruence].
  simpl. destruct (Configure cfg i) as [i' log]. simpl in *. subst i' log.
  auto.
Qed.

(** X4.  A plugin stays inert until a [Configure] finds everything it
    looks up: from construction, over any sequence of events in which
    every [Configure] misses its sensor, its name, its parent model or
    the world, the plugin is never marked as configured, never holds a
    rendering camera, leaves the entity-component manager as it is and
    writes or signals no field of view. *)
Theorem inert_until_configured
  (es : list event) (ecm : EntityComponentManager) :
  forallb notConfigured es = true ->
  isValidConfig (implAfter es (Impl_default, ecm)) = false
  /\ camera (implAfter es (Impl_default, ecm)) = None
  /\ snd (fst (run es (Impl_default, ecm))) = ecm
  /\ filter isFovSignal (logOf es (Impl_default, ecm)) = [].
Proof.
  intros Hall. unfold implAfter, logOf.
  assert (Hd : disabled Impl_default) by (split; reflexivity).
  revert Hd. generalize Impl_default as i.
  induction es as [| e es IH]; intros i Hd.
  - destruct Hd. simpl. auto.
  - simpl in Hall. apply andb_true_iff in Hall as [He Hall].
    pose proof (step_notConfigured e i ecm He Hd) as [Hd1 [He1 Hl1]].
    rewrite run_cons.
    destruct (step e (i, ecm)) as [[i1 ecm1] log1]. simpl in *. subst ecm1.
    destruct (IH Hall i1 Hd1) as [Hv [Hc [Hecm Hl]]].
    rewrite filter_app, Hl1, Hl. auto.
Qed.

Lemma inert_until_configured_witness :
  forallb notConfigured
    [EvConfigure (mkConfigureInput true (Some "camera"%string) false true
                    None None);
     EvPostUpdate "camera"; EvZoom 4;
     EvPreUpdate exampleInfo exampleRendering;
     EvPreUpdate exampleInfo exampleRendering] = true
  /\ camera (implAfter
               [EvConfigure (mkConfigureInput true (Some "camera"%string)
                               false true None None);
                EvPostUpdate "camera"; EvZoom 4;
                EvPreUpdate exampleInfo exampleRendering;
                EvPreUpdate exampleInfo exampleRendering]
               (Impl_default, ecmOf exampleCamera)) = None
  /\ snd (fst (run
                 [EvConfigure (mkConfigureInput true (Some "camera"%string)
                                 false true None None);
                  EvPostUpdate "camera"; EvZoom 4;
                  EvPreUpdate exampleInfo exampleRendering;
                  EvPreUpdate exampleInfo exampleRendering]
                 (Impl_default, ecmOf exampleCamera)))
     = ecmOf exampleCamera.
Proof.
  split; [reflexivity |].
  destruct (inert_until_configured
              [EvConfigure (mkConfigureInput true (Some "camera"%string)
                              false true None None);
               EvPostUpdate "camera"; EvZoom 4;
               EvPreUpdate exampleInfo exampleRendering;
               EvPreUpdate exampleInfo exampleRendering]
              (ecmOf exampleCamera) eq_refl) as [_ [Hc [He _]]].
  split; [exact Hc | exact He].
Defined.

(** ** What a step leaves alone *)

Lemma PreUpdate_frame (info : UpdateInfo) (r : Rendering)
  (i : Impl) (ecm : EntityComponentManager) :
  let i' := fst (fst (PreUpdate info r i ecm)) in
  let ecm' := snd (fst (PreUpdate info r i ecm)) in
  (cameraName i' = cameraName i /\ zoomCommand i' = zoomCommand i
   /\ refHfov i' = refHfov i /\ maxZoom i' = maxZoom i
   /\ slewRate i' = slewRate i /\ isValidConfig i' = isValidConfig i)
  /\ (camera i <> None -> camera i' = camera i /\ scene i' = scene i)
  /\ (cameraOf ecm = None -> ecm' = ecm)
  /\ (forall c, cameraOf ecm = Some c ->
                exists c', cameraOf ecm' = Some c'
                           /\ LensFocalLength c' = LensFocalLength c).
Proof.
  intros i' ecm'. unfold i', ecm'.
  destruct (PreUpdate_cases info r i ecm)
    as [[_ H] | [[_ [Hc H]] | [[_ [_ [_ H]]] | [H | H]]]].
  - rewrite H. simpl. repeat split; eauto.
  - rewrite H. simpl.
    pose proof (InitialiseCamera_frame r i)
      as [Hn [_ [Hzc [Hr [_ [Hm [Hs Hv]]]]]]].
    repeat split; eauto; congruence.
  - rewrite H. simpl. repeat split; eauto.
  - destruct H as [_ [_ [_ [_ H]]]]. rewrite H. simpl.
    pose proof (resolveGoal_frame i)
      as [Hn [Hzc [Hr [Hm [Hs [Hv [Hsc [Hc _]]]]]]]].
    repeat split; eauto.
  - destruct H as [cam [c [_ [_ [He H]]]]]. rewrite H. unfold activeStep.
    pose proof (resolveGoal_frame i)
      as [Hn [Hzc [Hr [Hm [Hs [Hv [Hsc [Hc _]]]]]]]].
    destruct (goalAchieved _ c); simpl; repeat split; eauto; try congruence.
    intros c0 Hc0. eexists. split; [reflexivity |]. simpl. congruence.
Qed.

Lemma Configure_keeps (c : ConfigureInput) (i : Impl) :
  cameraName (fst (Configure c i)) = cameraName i
  /\ camera (fst (Configure c i)) = camera i
  /\ scene (fst (Configure c i)) = scene i
  /\ refHfov (fst (Configure c i)) = refHfov i.
Proof.
  pose proof (Configure_frame c i) as [Hn [_ [_ [Hr [_ [Hs [Hc _]]]]]]].
  auto.
Qed.

Lemma PostUpdate_frame (n : string) (i : Impl) :
  zoomChanged (PostUpdate n i) = zoomChanged i
  /\ zoomCommand (PostUpdate n i) = zoomCommand i
  /\ refHfov (PostUpdate n i) = refHfov i
  /\ goalHfov (PostUpdate n i) = goalHfov i
  /\ maxZoom (PostUpdate n i) = maxZoom i
  /\ slewRate (PostUpdate n i) = slewRate i
  /\ isValidConfig (PostUpdate n i) = isValidConfig i
  /\ scene (PostUpdate n i) = scene i
  /\ camera (PostUpdate n i) = camera i.
Proof.
  unfold PostUpdate. destruct (negb _); simpl; auto 10.
Qed.

(** X5.  The rendering camera, once acquired, is held until the render
    teardown: over any sequence of events without a teardown, whatever
    is configured, commanded or rendered, a plugin that holds a camera
    and a scene holds the same camera and scene afterwards. *)
Theorem camera_held_until_teardown
  (es : list event) (i : Impl) (ecm : EntityComponentManager)
  (cam : CameraPtr) :
  forallb (fun e => negb (isTeardown e)) es = true ->
  camera i = Some cam ->
  camera (implAfter es (i, ecm)) = Some cam
  /\ scene (implAfter es (i, ecm)) = scene i.
Proof.
  unfold implAfter. revert i ecm.
  induction es as [| e es IH]; intros i ecm Hall Hc; [simpl; auto |].
  simpl in Hall. apply andb_true_iff in Hall as [He Hall].
  rewrite run_cons.
  assert (Hstep : camera (fst (fst (step e (i, ecm)))) = Some cam
                  /\ scene (fst (fst (step e (i, ecm)))) = scene i).
  { destruct e as [cfg | info rend | name | z |]; simpl in *.
    - pose proof (Configure_keeps cfg i) as [_ [Hc' [Hs' _]]].
      destruct (Configure cfg i). simpl in *. split; congruence.
    - pose proof (PreUpdate_frame info rend i ecm) as [_ [Hk _]].
      destruct (PreUpdate info rend i ecm) as [[i' ecm'] log]. simpl in *.
      assert (Hne : camera i <> None) by congruence.
      destruct (Hk Hne). split; congruence.
    - pose proof (PostUpdate_frame name i)
        as [_ [_ [_ [_ [_ [_ [_ [Hs' Hc']]]]]]]].
      split; congruence.
    - auto.
    - discriminate. }
  destruct (step e (i, ecm)) as [[i1 ecm1] log1]. simpl in *.
  destruct Hstep as [Hc1 Hs1].
  destruct (IH i1 ecm1 Hall Hc1) as [Hc2 Hs2].
  split; congruence.
Qed.

Lemma camera_held_until_teardown_witness :
  (forallb (fun e => negb (isTeardown e))
     [EvZoom 3; EvPreUpdate halfSecond pendingRendering;
      EvConfigure (exampleConfigure None); EvPostUpdate "other"] = true
   /\ camera (exampleImpl None exampleCamera) = Some 7%nat)
  /\ camera (implAfter
               [EvZoom 3; EvPreUpdate halfSecond pendingRendering;
                EvConfigure (exampleConfigure None); EvPostUpdate "other"]
               (exampleImpl None exampleCamera, ecmOf exampleCamera))
     = Some 7%nat.
Proof.
  split; [split; reflexivity |].
  exact (proj1 (camera_held_until_teardown
                  [EvZoom 3; EvPreUpdate halfSecond pendingRendering;
                   EvConfigure (exampleConfigure None); EvPostUpdate "other"]
                  (exampleImpl None exampleCamera) (ecmOf exampleCamera)
                  7%nat eq_refl eq_refl)).
Defined.

Lemma InitialiseCamera_success (r : Rendering) (i : Impl) (cam : CameraPtr) :
  camera i = None -> loadedEngines_empty r = false ->
  sceneReady r i = true -> sensorLookup r i = Some (RenderCamera cam) ->
  InitialiseCamera r i =
  (set_camera (Some cam) (set_scene (sceneInUse r i) i), []).
Proof.
  intros Hc He Hs Hl.
  destruct (InitialiseCamera_outcome r i Hc)
    as [[He' _] | [[_ [Hs' _]] | [[_ [_ [Hl' _]]] | [[_ [_ [Hl' _]]] | H]]]];
    try congruence.
  destruct H as [cam' [_ [_ [Hl' H]]]]. congruence.
Qed.

Lemma step_teardown (i : Impl) (ecm : EntityComponentManager) :
  step EvRenderTeardown (i, ecm)
  = ((fst (OnRenderTeardown i), ecm), [DbgDisabled]).
Proof. reflexivity. Qed.

Lemma step_configure (c : ConfigureInput) (i : Impl)
  (ecm : EntityComponentManager) :
  step (EvConfigure c) (i, ecm)
  = ((fst (Configure c i), ecm), snd (Configure c i)).
Proof. simpl. now destruct (Configure c i). Qed.

Lemma step_preupdate (info : UpdateInfo) (r : Rendering) (i : Impl)
  (ecm : EntityComponentManager) :
  step (EvPreUpdate info r) (i, ecm)
  = (fst (PreUpdate info r i ecm), snd (PreUpdate info r i ecm)).
Proof. simpl. now destruct (PreUpdate info r i ecm) as [[i' ecm'] log]. Qed.

(** X6.  After a render teardown the plugin comes back only through
    [Configure]: a teardown, a [Configure] whose lookups succeed and
    one step with a ready renderer leave the plugin configured and
    holding the camera that the scene of the first render engine has
    under the plugin's camera name; the command latch, the goal and the
    entity-component manager are as before the teardown. *)
Theorem teardown_then_configure_recovers
  (cfg : ConfigureInput) (info : UpdateInfo) (r : Rendering)
  (i : Impl) (ecm : EntityComponentManager) (sp : ScenePtr) (cam : CameraPtr) :
  lookupsSucceed cfg = true ->
  loadedEngines_empty r = false ->
  sceneFromFirstRenderEngine r = Some sp ->
  IsInitialized (deref r sp) = true -> SensorCount (deref r sp) <> 0%nat ->
  SensorByName (deref r sp) (cameraName i) = Some (RenderCamera cam) ->
  let es := [EvRenderTeardown; EvConfigure cfg; EvPreUpdate info r] in
  isValidConfig (implAfter es (i, ecm)) = true
  /\ camera (implAfter es (i, ecm)) = Some cam
  /\ scene (implAfter es (i, ecm)) = Some sp
  /\ zoomChanged (implAfter es (i, ecm)) = zoomChanged i
  /\ zoomCommand (implAfter es (i, ecm)) = zoomCommand i
  /\ goalHfov (implAfter es (i, ecm)) = goalHfov i
  /\ snd (fst (run es (i, ecm))) = ecm.
Proof.
  intros Hok He Hsp Hin Hcnt Hby es. unfold es, implAfter.
  rewrite run_cons, step_teardown. cbn [fst snd].
  rewrite run_cons, step_configure. cbn [fst snd].
  rewrite run_cons, step_preupdate. cbn [run fst snd].
  set (i0 := fst (OnRenderTeardown i)).
  destruct (Configure_outcome cfg i0) as [[Hbad _] | [_ Hcfg]];
    [congruence |].
  rewrite Hcfg. cbn [fst snd].
  set (i1 := set_isValidConfig true _).
  assert (Hv1 : isValidConfig i1 = true) by reflexivity.
  assert (Hc1 : camera i1 = None).
  { unfold i1. destruct (sdf_slew_rate cfg), (sdf_max_zoom cfg); reflexivity. }
  assert (Hs1 : scene i1 = None).
  { unfold i1. destruct (sdf_slew_rate cfg), (sdf_max_zoom cfg); reflexivity. }
  assert (Hn1 : cameraName i1 = cameraName i).
  { unfold i1. destruct (sdf_slew_rate cfg), (sdf_max_zoom cfg); reflexivity. }
  assert (Hl1 : zoomChanged i1 = zoomChanged i /\ zoomCommand i1 = zoomCommand i
                /\ goalHfov i1 = goalHfov i).
  { unfold i1. destruct (sdf_slew_rate cfg), (sdf_max_zoom cfg);
      repeat split; reflexivity. }
  assert (Huse : sceneInUse r i1 = Some sp).
  { unfold sceneInUse. now rewrite Hs1. }
  assert (Hready : sceneReady r i1 = true).
  { unfold sceneReady. rewrite Huse, Hin. simpl.
    apply negb_true_iff, Nat.eqb_neq. exact Hcnt. }
  assert (Hlook : sensorLookup r i1 = Some (RenderCamera cam)).
  { unfold sensorLookup. now rewrite Huse, Hn1. }
  rewrite (PreUpdate_acquiring info r i1 ecm Hv1 Hc1).
  rewrite (InitialiseCamera_success r i1 cam Hc1 He Hready Hlook).
  rewrite Huse. cbn [fst snd]. destruct Hl1 as [Hz [Hzc Hg]].
  repeat split; simpl; assumption.
Qed.

Lemma teardown_then_configure_recovers_witness :
  (lookupsSucceed (exampleConfigure None) = true
   /\ loadedEngines_empty exampleRendering = false
   /\ sceneFromFirstRenderEngine exampleRendering = Some 0%nat
   /\ IsInitialized (deref exampleRendering 0%nat) = true
   /\ SensorCount (deref exampleRendering 0%nat) <> 0%nat
   /\ SensorByName (deref exampleRendering 0%nat)
        (cameraName (commandedImpl None 2)) = Some (RenderCamera 7%nat))
  /\ camera (implAfter
               [EvRenderTeardown; EvConfigure (exampleConfigure None);
                EvPreUpdate exampleInfo exampleRendering]
               (commandedImpl None 2, ecmOf exampleCamera)) = Some 7%nat
  /\ zoomChanged (implAfter
                    [EvRenderTeardown; EvConfigure (exampleConfigure None);
                     EvPreUpdate exampleInfo exampleRendering]
                    (commandedImpl None 2, ecmOf exampleCamera)) = true.
Proof.
  assert (Hcnt : SensorCount (deref exampleRendering 0%nat) <> 0%nat)
    by discriminate.
  split; [repeat split; exact Hcnt |].
  destruct (teardown_then_configure_recovers (exampleConfigure None)
              exampleInfo exampleRendering (commandedImpl None 2)
              (ecmOf exampleCamera) 0%nat 7%nat
              eq_refl eq_refl eq_refl eq_refl Hcnt eq_refl)
    as [_ [Hc [_ [Hz _]]]].
  split; [exact Hc | exact Hz].
Defined.

(** ** The command latch *)

Lemma OnZoom_OnZoom (y z : R) (i : Impl) : OnZoom z (OnZoom y i) = OnZoom z i.
Proof. reflexivity. Qed.

Lemma lastCommand_cons (z z0 : R) (zs : list R) :
  lastCommand (z :: zs) z0 = lastCommand zs z.
Proof.
  unfold lastCommand. revert z z0. induction zs as [| y zs IH]; intros z z0.
  - reflexivity.
  - change (last (z :: y :: zs) z0) with (last (y :: zs) z0).
    now rewrite (IH y z0), (IH y z).
Qed.

Lemma run_zooms (zs : list R) (z0 : R) (i : Impl)
  (ecm : EntityComponentManager) :
  run (map EvZoom (z0 :: zs)) (i, ecm)
  = ((OnZoom (lastCommand zs z0) i, ecm), []).
Proof.
  revert z0 i. induction zs as [| z zs IH]; intros z0 i.
  - reflexivity.
  - change (map EvZoom (z0 :: z :: zs))
      with (EvZoom z0 :: map EvZoom (z :: zs)).
    rewrite run_cons. cbn [step fst snd].
    rewrite IH, OnZoom_OnZoom. cbn [fst snd app].
    now rewrite lastCommand_cons.
Qed.

(** X7.  Commands that arrive between two steps are coalesced: after a
    burst of commands, the next step of a plugin that gets past its
    guards resolves the goal from the last command of the burst alone,
    warns about that command only, and lowers the flag. *)
Theorem commands_coalesce
  (zs : list R) (z0 : R) (info : UpdateInfo) (r : Rendering)
  (i : Impl) (ecm : EntityComponentManager) :
  isValidConfig i = true -> camera i <> None -> CameraComponent ecm <> None ->
  let es := map EvZoom (z0 :: zs) ++ [EvPreUpdate info r] in
  let z := lastCommand zs z0 in
  let clamped := clamp z minZoom (maxZoom i) in
  goalHfov (implAfter es (i, ecm)) = refHfov i / clamped
  /\ zoomChanged (implAfter es (i, ecm)) = false
  /\ zoomCommand (implAfter es (i, ecm)) = z
  /\ filter isWarnClamped (logOf es (i, ecm))
     = (if Rgt_dec (Rabs (z - clamped)) epsilon
        then [WarnClamped z clamped] else []).
Proof.
  intros Hv Hc Hs es z clamped. unfold es, implAfter, logOf.
  rewrite run_app, run_zooms. cbn [fst snd app].
  rewrite run_cons. cbn [step run fst snd].
  fold z.
  pose proof (PreUpdate_resolves info r (OnZoom z i) ecm Hv Hc Hs)
    as [Hi Hw].
  destruct (PreUpdate info r (OnZoom z i) ecm) as [[i' ecm'] log].
  cbn [fst snd] in *. rewrite app_nil_r, Hw, Hi.
  rewrite resolveGoal_goal, resolveGoal_log.
  pose proof (resolveGoal_frame (OnZoom z i))
    as [_ [Hzc [_ [_ [_ [_ [_ [_ Hz]]]]]]]].
  rewrite Hz, Hzc. simpl. auto.
Qed.

Lemma commands_coalesce_witness :
  (isValidConfig (exampleImpl None exampleCamera) = true
   /\ camera (exampleImpl None exampleCamera) <> None
   /\ CameraComponent (ecmOf exampleCamera) <> None)
  /\ goalHfov (implAfter
                 (map EvZoom [20; 5; 2]
                  ++ [EvPreUpdate exampleInfo exampleRendering])
                 (exampleImpl None exampleCamera, ecmOf exampleCamera))
     = 1.
Proof.
  assert (Hc : camera (exampleImpl None exampleCamera) <> None)
    by discriminate.
  assert (Hs : CameraComponent (ecmOf exampleCamera) <> None)
    by discriminate.
  split; [repeat split; assumption |].
  destruct (commands_coalesce [5; 2] 20 exampleInfo exampleRendering
              (exampleImpl None exampleCamera) (ecmOf exampleCamera)
              eq_refl Hc Hs) as [Hg _].
  rewrite Hg.
  change (lastCommand [5; 2] 20) with 2.
  change (maxZoom (exampleImpl None exampleCamera)) with 10.
  change (refHfov (exampleImpl None exampleCamera)) with 2.
  rewrite clamp_id by (unfold minZoom; lra). lra.
Defined.

(** ** Invariants of whole runs *)

Lemma step_postupdate (n : string) (i : Impl) (ecm : EntityComponentManager) :
  step (EvPostUpdate n) (i, ecm) = ((PostUpdate n i, ecm), []).
Proof. reflexivity. Qed.

Lemma step_zoom (z : R) (i : Impl) (ecm : EntityComponentManager) :
  step (EvZoom z) (i, ecm) = ((OnZoom z i, ecm), []).
Proof. reflexivity. Qed.

Lemma resolveGoal_bounds (i : Impl) :
  0 < refHfov i -> 1 <= maxZoom i -> 0 < goalHfov i <= refHfov i ->
  0 < goalHfov (fst (resolveGoal i)) <= refHfov i.
Proof.
  intros Hr Hmax Hg. rewrite resolveGoal_goal.
  destruct (zoomChanged i); [| exact Hg].
  pose proof (clamp_bounds (zoomCommand i) minZoom (maxZoom i) Hmax)
    as [Hlo _].
  unfold minZoom in *.
  set (k := clamp (zoomCommand i) 1 (maxZoom i)) in *.
  split.
  - apply Rdiv_lt_0_compat; lra.
  - apply (Rmult_le_reg_r k); [lra |].
    replace (refHfov i / k * k) with (refHfov i) by (field; lra). nra.
Qed.

Lemma PreUpdate_goal_cases (info : UpdateInfo) (r : Rendering)
  (i : Impl) (ecm : EntityComponentManager) :
  goalHfov (fst (fst (PreUpdate info r i ecm))) = goalHfov i
  \/ goalHfov (fst (fst (PreUpdate info r i ecm)))
     = goalHfov (fst (resolveGoal i)).
Proof.
  destruct (PreUpdate_cases info r i ecm)
    as [[_ H] | [[_ [_ H]] | [[_ [_ [_ H]]] | [H | H]]]].
  - rewrite H. now left.
  - rewrite H. left. simpl.
    now destruct (InitialiseCamera_frame r i) as [_ [_ [_ [_ [Hg _]]]]].
  - rewrite H. now left.
  - destruct H as [_ [_ [_ [_ H]]]]. rewrite H. now right.
  - destruct H as [cam [c [_ [_ [_ H]]]]]. rewrite H. right.
    unfold activeStep. now destruct (goalAchieved _ c).
Qed.

Lemma step_goalValid (e : event) (i : Impl) (ecm : EntityComponentManager) :
  maxZoomAtLeastOne e -> goalValid i ->
  goalValid (fst (fst (step e (i, ecm)))).
Proof.
  intros He [Hr [Hm Hg]]. unfold goalValid.
  destruct e as [cfg | info rend | name | z |].
  - rewrite step_configure. cbn [fst].
    pose proof (Configure_frame cfg i) as [_ [_ [_ [Hr' [Hg' _]]]]].
    rewrite Hr', Hg'. repeat split; try tauto.
    destruct (Configure_outcome cfg i) as [[_ [Hi _]] | [_ Hcfg]].
    + now rewrite Hi.
    + rewrite Hcfg. simpl in *.
      destruct (sdf_slew_rate cfg), (sdf_max_zoom cfg); simpl; assumption.
  - rewrite step_preupdate. cbn [fst].
    pose proof (PreUpdate_frame info rend i ecm) as [[_ [_ [Hr' [Hm' _]]]] _].
    cbv zeta in Hr', Hm'. rewrite Hr', Hm'.
    split; [exact Hr |]. split; [exact Hm |].
    destruct (PreUpdate_goal_cases info rend i ecm) as [H | H]; rewrite H.
    + exact Hg.
    + rewrite <- Hr. apply resolveGoal_bounds; rewrite ?Hr; lra.
  - rewrite step_postupdate. cbn [fst].
    pose proof (PostUpdate_frame name i) as [_ [_ [Hr' [Hg' [Hm' _]]]]].
    now rewrite Hr', Hg', Hm'.
  - rewrite step_zoom. simpl. auto.
  - rewrite step_teardown. simpl. auto.
Qed.

(** X8.  From construction, over any sequence of events in which no
    [Configure] sets a maximum zoom below 1 and every command is a
    number (an [EvZoom] carries a real), whatever numbers are
    commanded, the reference field of view is 2.0 rad and the goal is
    in (0, 2], hence a field of view in (0, PI) on which the optics
    conversions are defined.  The commands have to be numbers: the goal
    that the same plugin resolves from NaN is NaN. *)
Theorem goal_stays_valid (es : list event) (ecm : EntityComponentManager) :
  Forall maxZoomAtLeastOne es ->
  refHfov (implAfter es (Impl_default, ecm)) = 2
  /\ 1 <= maxZoom (implAfter es (Impl_default, ecm))
  /\ 0 < goalHfov (implAfter es (Impl_default, ecm)) <= 2
  /\ goalHfov (implAfter es (Impl_default, ecm)) < PI
  /\ rawGoal (resolveGoalRaw (implAfter es (Impl_default, ecm)) NaN) = NaN.
Proof.
  intros Hall. unfold implAfter.
  assert (Hv : goalValid Impl_default).
  { unfold goalValid. simpl. lra. }
  assert (Hgen : forall i ecm0, goalValid i ->
                   goalValid (fst (fst (run es (i, ecm0))))).
  { induction Hall as [| e es He Hall IH]; intros i ecm0 Hi; [exact Hi |].
    rewrite run_cons.
    pose proof (step_goalValid e i ecm0 He Hi) as H1.
    destruct (step e (i, ecm0)) as [[i1 ecm1] log1]. cbn [fst snd] in *.
    now apply IH. }
  destruct (Hgen Impl_default ecm Hv) as [Hr [Hm Hg]].
  pose proof two_lt_PI. repeat split; try tauto; lra.
Qed.

Lemma goal_stays_valid_witness :
  Forall maxZoomAtLeastOne
    (startup None ++ [EvZoom 1000; EvPreUpdate exampleInfo exampleRendering;
                      EvZoom (-3); EvPreUpdate exampleInfo exampleRendering])
  /\ 0 < goalHfov
           (implAfter
              (startup None
               ++ [EvZoom 1000; EvPreUpdate exampleInfo exampleRendering;
                   EvZoom (-3); EvPreUpdate exampleInfo exampleRendering])
              (Impl_default, ecmOf exampleCamera)) <= 2.
Proof.
  assert (H : Forall maxZoomAtLeastOne
                (startup None
                 ++ [EvZoom 1000; EvPreUpdate exampleInfo exampleRendering;
                     EvZoom (-3); EvPreUpdate exampleInfo exampleRendering]))
    by (repeat constructor).
  split; [exact H |].
  exact (proj1 (proj2 (proj2 (goal_stays_valid _ (ecmOf exampleCamera) H)))).
Defined.

(** X9.  The camera name is recorded once: over any sequence of
    events, a plugin whose camera name is not empty keeps that name,
    whatever scoped names later [PostUpdate] calls compute. *)
Theorem cameraName_is_set_once
  (es : list event) (i : Impl) (ecm : EntityComponentManager) :
  cameraName i <> EmptyString ->
  cameraName (implAfter es (i, ecm)) = cameraName i.
Proof.
  unfold implAfter. revert i ecm.
  induction es as [| e es IH]; intros i ecm Hn; [reflexivity |].
  rewrite run_cons.
  assert (Hstep : cameraName (fst (fst (step e (i, ecm)))) = cameraName i).
  { destruct e as [cfg | info rend | name | z |].
    - rewrite step_configure. exact (proj1 (Configure_keeps cfg i)).
    - rewrite step_preupdate.
      exact (proj1 (proj1 (PreUpdate_frame info rend i ecm))).
    - rewrite step_postupdate. cbn [fst]. unfold PostUpdate.
      destruct (String.eqb (cameraName i) EmptyString) eqn:E;
        [| reflexivity].
      apply String.eqb_eq in E. contradiction.
    - reflexivity.
    - reflexivity. }
  destruct (step e (i, ecm)) as [[i1 ecm1] log1]. cbn [fst snd] in *.
  rewrite IH; [exact Hstep | congruence].
Qed.

Lemma cameraName_is_set_once_witness :
  cameraName configuredImpl <> EmptyString
  /\ cameraName (implAfter [EvPostUpdate "other"; EvRenderTeardown;
                            EvPostUpdate ""]
                   (configuredImpl, ecmOf exampleCamera))
     = "camera"%string.
Proof.
  assert (H : cameraName configuredImpl <> EmptyString) by discriminate.
  split; [exact H |].
  exact (cameraName_is_set_once [EvPostUpdate "other"; EvRenderTeardown;
                                 EvPostUpdate ""]
           configuredImpl (ecmOf exampleCamera) H).
Defined.

(** X10.  The configuration is written by [Configure] alone: over any
    sequence of events the reference field of view is unchanged, and
    over any sequence without a [Configure] the maximum zoom and the
    slew rate are unchanged as well. *)
Theorem configuration_is_immutable
  (es : list event) (i : Impl) (ecm : EntityComponentManager) :
  refHfov (implAfter es (i, ecm)) = refHfov i
  /\ (forallb (fun e => negb (isConfigure e)) es = true ->
      maxZoom (implAfter es (i, ecm)) = maxZoom i
      /\ slewRate (implAfter es (i, ecm)) = slewRate i).
Proof.
  unfold implAfter. revert i ecm.
  induction es as [| e es IH]; intros i ecm; [simpl; auto |].
  rewrite run_cons.
  assert (Hstep : refHfov (fst (fst (step e (i, ecm)))) = refHfov i
                  /\ (isConfigure e = false ->
                      maxZoom (fst (fst (step e (i, ecm)))) = maxZoom i
                      /\ slewRate (fst (fst (step e (i, ecm)))) = slewRate i)).
  { destruct e as [cfg | info rend | name | z |].
    - rewrite step_configure. cbn [fst].
      split; [exact (proj2 (proj2 (proj2 (Configure_keeps cfg i)))) |].
      discriminate.
    - rewrite step_preupdate.
      pose proof (PreUpdate_frame info rend i ecm)
        as [[_ [_ [Hr [Hm [Hs _]]]]] _].
      auto.
    - rewrite step_postupdate. cbn [fst].
      pose proof (PostUpdate_frame name i)
        as [_ [_ [Hr [_ [Hm [Hs _]]]]]].
      auto.
    - rewrite step_zoom. simpl. auto.
    - rewrite step_teardown. simpl. auto. }
  destruct (step e (i, ecm)) as [[i1 ecm1] log1]. cbn [fst snd] in *.
  destruct Hstep as [Hr Hcfg]. destruct (IH i1 ecm1) as [Hr1 Hcfg1].
  split; [congruence |].
  intros Hall. simpl in Hall. apply andb_true_iff in Hall as [He Hall].
  apply negb_true_iff in He.
  destruct (Hcfg He) as [Hm Hs]. destruct (Hcfg1 Hall) as [Hm1 Hs1].
  split; congruence.
Qed.

Lemma configuration_is_immutable_witness :
  forallb (fun e => negb (isConfigure e))
    [EvZoom 50; EvPreUpdate halfSecond exampleRendering; EvRenderTeardown]
  = true
  /\ maxZoom (implAfter
                [EvZoom 50; EvPreUpdate halfSecond exampleRendering;
                 EvRenderTeardown]
                (exampleImpl (Some (Finite 1)) exampleCamera,
                 ecmOf exampleCamera)) = 10
  /\ slewRate (implAfter
                 [EvZoom 50; EvPreUpdate halfSecond exampleRendering;
                  EvRenderTeardown]
                 (exampleImpl (Some (Finite 1)) exampleCamera,
                  ecmOf exampleCamera)) = Finite 1.
Proof.
  split; [reflexivity |].
  exact (proj2 (configuration_is_immutable
                  [EvZoom 50; EvPreUpdate halfSecond exampleRendering;
                   EvRenderTeardown]
                  (exampleImpl (Some (Finite 1)) exampleCamera)
                  (ecmOf exampleCamera)) eq_refl).
Defined.

Lemma step_ecm (e : event) (i : Impl) (ecm : EntityComponentManager) :
  (cameraOf ecm = None -> snd (fst (step e (i, ecm))) = ecm)
  /\ (forall c, cameraOf ecm = Some c ->
                exists c', cameraOf (snd (fst (step e (i, ecm)))) = Some c'
                           /\ LensFocalLength c' = LensFocalLength c).
Proof.
  destruct e as [cfg | info rend | name | z |].
  - rewrite step_configure. cbn [fst snd]. split; eauto.
  - rewrite step_preupdate. cbn [fst snd].
    pose proof (PreUpdate_frame info rend i ecm) as [_ [_ [Hn Hs]]].
    split; assumption.
  - rewrite step_postupdate. cbn [fst snd]. split; eauto.
  - rewrite step_zoom. cbn [fst snd]. split; eauto.
  - rewrite step_teardown. cbn [fst snd]. split; eauto.
Qed.

Lemma run_keeps_camera (es : list event) (s : system) :
  (forall c, cameraOf (snd s) = Some c ->
             exists c', cameraOf (snd (fst (run es s))) = Some c'
                        /\ LensFocalLength c' = LensFocalLength c)
  /\ (cameraOf (snd s) = None -> snd (fst (run es s)) = snd s).
Proof.
  revert s. induction es as [| e es IH]; intros [i ecm]; cbn [snd].
  - simpl. split; eauto.
  - rewrite run_cons. cbn [fst snd].
    pose proof (step_ecm e i ecm) as [Hnone Hsome].
    destruct (step e (i, ecm)) as [[i1 ecm1] log1]. cbn [fst snd] in *.
    destruct (IH (i1, ecm1)) as [IHsome IHnone]. cbn [snd] in *.
    split.
    + intros c Hc. destruct (Hsome c Hc) as [c1 [Hc1 Hf1]].
      destruct (IHsome c1 Hc1) as [c2 [Hc2 Hf2]].
      exists c2. split; [exact Hc2 | congruence].
    + intros Hc. specialize (Hnone Hc). subst ecm1. now apply IHnone.
Qed.

(** X11.  The plugin never writes the lens focal length and never adds
    or removes the camera attributes: over any sequence of events, a
    camera found in the entity-component manager is still found, with
    the focal length it had, and an entity-component manager without
    camera attributes is left exactly as it is. *)
Theorem focal_length_is_never_written (es : list event) (s : system) :
  (forall c, cameraOf (snd s) = Some c ->
             exists c', cameraAfter es s = Some c'
                        /\ LensFocalLength c' = LensFocalLength c)
  /\ (cameraOf (snd s) = None -> snd (fst (run es s)) = snd s).
Proof.
  unfold cameraAfter. exact (run_keeps_camera es s).
Qed.

Lemma focal_length_is_never_written_witness :
  cameraOf (ecmOf exampleCamera) = Some exampleCamera
  /\ exists c',
       cameraAfter (EvZoom 2 :: ticks 3 halfSecond exampleRendering)
         (exampleImpl (Some (Finite (1 / 10))) exampleCamera,
          ecmOf exampleCamera) = Some c'
       /\ LensFocalLength c' = 1.
Proof.
  split; [reflexivity |].
  exact (proj1 (focal_length_is_never_written
                  (EvZoom 2 :: ticks 3 halfSecond exampleRendering)
                  (exampleImpl (Some (Finite (1 / 10))) exampleCamera,
                   ecmOf exampleCamera))
           exampleCamera eq_refl).
Defined.

(** ** Steps without a new command *)

Lemma PreUpdate_latch_idle (info : UpdateInfo) (r : Rendering)
  (i : Impl) (ecm : EntityComponentManager) :
  zoomChanged i = false ->
  zoomChanged (fst (fst (PreUpdate info r i ecm))) = false
  /\ goalHfov (fst (fst (PreUpdate info r i ecm))) = goalHfov i
  /\ filter isWarnClamped (snd (PreUpdate info r i ecm)) = [].
Proof.
  intros Hz.
  assert (Hd : commandDetected i ecm = false).
  { unfold commandDetected. rewrite Hz. apply andb_false_r. }
  pose proof (PreUpdate_idle info r i ecm Hd) as [Hg [_ Hw]].
  split; [| split; assumption].
  destruct (PreUpdate_cases info r i ecm)
    as [[_ H] | [[_ [_ H]] | [[_ [_ [_ H]]] | [H | H]]]].
  - now rewrite H.
  - rewrite H. simpl.
    destruct (InitialiseCamera_frame r i) as [_ [Hz' _]]. congruence.
  - now rewrite H.
  - destruct H as [_ [_ [_ [_ H]]]]. rewrite H. simpl.
    now destruct (resolveGoal_frame i) as [_ [_ [_ [_ [_ [_ [_ [_ Hf]]]]]]]].
  - destruct H as [cam [c [_ [_ [_ H]]]]]. rewrite H. unfold activeStep.
    destruct (goalAchieved _ c); simpl;
      now destruct (resolveGoal_frame i) as [_ [_ [_ [_ [_ [_ [_ [_ Hf]]]]]]]].
Qed.

Lemma PreUpdate_at_goal (info : UpdateInfo) (r : Rendering)
  (i : Impl) (ecm : EntityComponentManager) (c : SdfCamera) :
  zoomChanged i = false -> cameraOf ecm = Some c ->
  goalAchieved (goalHfov i) c = true ->
  snd (fst (PreUpdate info r i ecm)) = ecm
  /\ filter isFovSignal (snd (PreUpdate info r i ecm)) = [].
Proof.
  intros Hz He Ha.
  destruct (PreUpdate_cases info r i ecm)
    as [[_ H] | [[_ [_ H]] | [[_ [_ [_ H]]] | [H | H]]]].
  - rewrite H. auto.
  - rewrite H. simpl.
    now destruct (InitialiseCamera_no_fov_signal r i) as [Hn _].
  - rewrite H. auto.
  - destruct H as [_ [_ [_ [_ H]]]]. rewrite H. simpl.
    split; [reflexivity | apply resolveGoal_no_fov_signal].
  - destruct H as [cam [c0 [_ [_ [He0 H]]]]]. rewrite H.
    assert (c0 = c) by congruence. subst c0.
    unfold activeStep. rewrite (resolveGoal_idle i Hz). cbn [fst snd].
    rewrite Ha. auto.
Qed.

Lemma preUpdates_at_goal (ts : list (UpdateInfo * Rendering))
  (i : Impl) (ecm : EntityComponentManager) (c : SdfCamera) :
  zoomChanged i = false -> cameraOf ecm = Some c ->
  goalAchieved (goalHfov i) c = true ->
  snd (fst (run (preUpdates ts) (i, ecm))) = ecm
  /\ filter isFovSignal (snd (run (preUpdates ts) (i, ecm))) = []
  /\ filter isWarnClamped (snd (run (preUpdates ts) (i, ecm))) = []
  /\ goalHfov (fst (fst (run (preUpdates ts) (i, ecm)))) = goalHfov i
  /\ zoomChanged (fst (fst (run (preUpdates ts) (i, ecm)))) = false.
Proof.
  intros Hz He Ha. revert i Hz Ha.
  induction ts as [| [info r] ts IH]; intros i Hz Ha; [simpl; auto |].
  change (preUpdates ((info, r) :: ts))
    with (EvPreUpdate info r :: preUpdates ts).
  rewrite run_cons, step_preupdate. cbn [fst snd].
  pose proof (PreUpdate_latch_idle info r i ecm Hz) as [Hz1 [Hg1 Hw1]].
  pose proof (PreUpdate_at_goal info r i ecm c Hz He Ha) as [He1 Hl1].
  destruct (PreUpdate info r i ecm) as [[i1 ecm1] log1]. cbn [fst snd] in *.
  subst ecm1. rewrite <- Hg1 in Ha.
  destruct (IH i1 Hz1 Ha) as [He2 [Hl2 [Hw2 [Hg2 Hz2]]]].
  rewrite !filter_app, Hl1, Hl2, Hw1, Hw2, Hg2, Hg1. auto.
Qed.

(** X12.  A camera at its goal is at rest: with no command pending and
    the field of view within the machine epsilon of the goal, any
    number of steps, of whatever duration and with whatever renderer,
    leave the entity-component manager and the goal as they are and
    write, signal and warn nothing. *)
Theorem at_goal_is_at_rest
  (ts : list (UpdateInfo * Rendering)) (i : Impl)
  (ecm : EntityComponentManager) (c : SdfCamera) :
  zoomChanged i = false -> cameraOf ecm = Some c ->
  Rabs (goalHfov i - HorizontalFov c) < epsilon ->
  snd (fst (run (preUpdates ts) (i, ecm))) = ecm
  /\ filter isFovSignal (logOf (preUpdates ts) (i, ecm)) = []
  /\ filter isWarnClamped (logOf (preUpdates ts) (i, ecm)) = []
  /\ goalHfov (implAfter (preUpdates ts) (i, ecm)) = goalHfov i.
Proof.
  intros Hz He Ha. apply goalAchieved_true in Ha.
  destruct (preUpdates_at_goal ts i ecm c Hz He Ha)
    as [H1 [H2 [H3 [H4 _]]]].
  unfold logOf, implAfter. auto.
Qed.

Lemma at_goal_is_at_rest_witness :
  (zoomChanged (exampleImpl (Some (Finite 1)) exampleCamera) = false
   /\ cameraOf (ecmOf exampleCamera) = Some exampleCamera
   /\ Rabs (goalHfov (exampleImpl (Some (Finite 1)) exampleCamera)
            - HorizontalFov exampleCamera) < epsilon)
  /\ snd (fst (run (preUpdates [(halfSecond, exampleRendering);
                               (zeroDuration, pendingRendering)])
                 (exampleImpl (Some (Finite 1)) exampleCamera,
                  ecmOf exampleCamera)))
     = ecmOf exampleCamera.
Proof.
  assert (Ha : Rabs (goalHfov (exampleImpl (Some (Finite 1)) exampleCamera)
                     - HorizontalFov exampleCamera) < epsilon).
  { change (goalHfov (exampleImpl (Some (Finite 1)) exampleCamera))
      with (HorizontalFov exampleCamera).
    apply goalAchieved_true, goalAchieved_at_goal. }
  split; [repeat split; exact Ha |].
  exact (proj1 (at_goal_is_at_rest
                  [(halfSecond, exampleRendering);
                   (zeroDuration, pendingRendering)]
                  (exampleImpl (Some (Finite 1)) exampleCamera)
                  (ecmOf exampleCamera) exampleCamera eq_refl eq_refl Ha)).
Defined.

Lemma preUpdates_latch_idle (ts : list (UpdateInfo * Rendering))
  (i : Impl) (ecm : EntityComponentManager) :
  zoomChanged i = false ->
  zoomChanged (fst (fst (run (preUpdates ts) (i, ecm)))) = false
  /\ goalHfov (fst (fst (run (preUpdates ts) (i, ecm)))) = goalHfov i
  /\ filter isWarnClamped (snd (run (preUpdates ts) (i, ecm))) = [].
Proof.
  revert i ecm. induction ts as [| [info r] ts IH]; intros i ecm Hz;
    [simpl; auto |].
  change (preUpdates ((info, r) :: ts))
    with (EvPreUpdate info r :: preUpdates ts).
  rewrite run_cons, step_preupdate. cbn [fst snd].
  pose proof (PreUpdate_latch_idle info r i ecm Hz) as [Hz1 [Hg1 Hw1]].
  destruct (PreUpdate info r i ecm) as [[i1 ecm1] log1]. cbn [fst snd] in *.
  destruct (IH i1 ecm1 Hz1) as [Hz2 [Hg2 Hw2]].
  rewrite filter_app, Hw1, Hw2, Hg2, Hg1. auto.
Qed.

(** X13.  A command is resolved once: when a step detects a command
    change, that step and any number of further steps without a new
    command, of whatever duration, log the clamp warning of that one
    resolution and no other, and leave the goal at the reference field
    of view divided by the clamped command, with the flag lowered. *)
Theorem command_is_resolved_once
  (info : UpdateInfo) (r : Rendering) (ts : list (UpdateInfo * Rendering))
  (i : Impl) (ecm : EntityComponentManager) :
  commandDetected i ecm = true ->
  let es := EvPreUpdate info r :: preUpdates ts in
  let z := zoomCommand i in
  let clamped := clamp z minZoom (maxZoom i) in
  filter isWarnClamped (logOf es (i, ecm))
  = (if Rgt_dec (Rabs (z - clamped)) epsilon
     then [WarnClamped z clamped] else [])
  /\ goalHfov (implAfter es (i, ecm)) = refHfov i / clamped
  /\ zoomChanged (implAfter es (i, ecm)) = false.
Proof.
  intros Hd es z clamped. unfold es, logOf, implAfter.
  destruct (commandDetected_true i ecm Hd) as [Hv [Hc [Hs Hz]]].
  rewrite run_cons, step_preupdate. cbn [fst snd].
  pose proof (PreUpdate_resolves info r i ecm Hv Hc Hs) as [Hi Hw].
  destruct (PreUpdate info r i ecm) as [[i1 ecm1] log1]. cbn [fst snd] in *.
  subst i1.
  assert (Hz1 : zoomChanged (fst (resolveGoal i)) = false).
  { now destruct (resolveGoal_frame i) as [_ [_ [_ [_ [_ [_ [_ [_ Hf]]]]]]]]. }
  destruct (preUpdates_latch_idle ts (fst (resolveGoal i)) ecm1 Hz1)
    as [Hz2 [Hg2 Hw2]].
  rewrite filter_app, Hw, Hw2, app_nil_r, Hg2.
  rewrite resolveGoal_log, resolveGoal_goal, Hz.
  split; [reflexivity |]. split; [reflexivity | exact Hz2].
Qed.

Lemma command_is_resolved_once_witness :
  commandDetected (commandedImpl (Some (Finite (1 / 10))) 20)
    (ecmOf exampleCamera) = true
  /\ filter isWarnClamped
       (logOf (EvPreUpdate halfSecond exampleRendering
               :: preUpdates [(halfSecond, exampleRendering);
                              (halfSecond, exampleRendering)])
          (commandedImpl (Some (Finite (1 / 10))) 20, ecmOf exampleCamera))
     = [WarnClamped 20 10].
Proof.
  split; [reflexivity |].
  destruct (command_is_resolved_once halfSecond exampleRendering
              [(halfSecond, exampleRendering); (halfSecond, exampleRendering)]
              (commandedImpl (Some (Finite (1 / 10))) 20)
              (ecmOf exampleCamera) eq_refl) as [Hw _].
  rewrite Hw.
  change (zoomCommand (commandedImpl (Some (Finite (1 / 10))) 20)) with 20.
  change (maxZoom (commandedImpl (Some (Finite (1 / 10))) 20)) with 10.
  rewrite example_clamp.
  destruct (Rgt_dec (Rabs (20 - 10)) epsilon) as [| Hn]; [reflexivity |].
  exfalso. apply Hn. pose proof epsilon_lt_1.
  unfold Rabs. destruct (Rcase_abs (20 - 10)); lra.
Defined.

(** ** Edges of the focal-length step *)

(** X24.  Within one step the focal length is rate limited: with a
    finite slew rate that is not negative and a step duration that is
    not negative, the new focal length of a step is the current one
    moved toward the goal focal length of that step by the smaller of
    [slewRate * dt] and their distance; it changes by at most
    [slewRate * dt] and lies between the current and the goal focal
    length. *)
Theorem step_is_rate_limited
  (r : R) (d : Z) (goal : R) (c : SdfCamera) :
  0 <= r -> (0 <= d)%Z ->
  let cur := curFocalLength c in
  let goalFL := goalFocalLength goal c in
  let new := newFocalLength (Finite r) d goal c in
  let delta := Rmin (r * seconds d) (Rabs (cur - goalFL)) in
  new = (if Rgt_dec goalFL cur then cur + delta else cur - delta)
  /\ Rabs (new - cur) = delta
  /\ Rabs (new - cur) <= r * seconds d
  /\ Rabs (goalFL - new) = Rabs (goalFL - cur) - delta
  /\ Rmin cur goalFL <= new <= Rmax cur goalFL.
Proof.
  intros Hr Hd cur goalFL new delta.
  assert (Hm : 0 <= r * seconds d).
  { apply Rmult_le_pos; [exact Hr | now apply seconds_nonneg]. }
  pose proof (slewFocalLength_finite r d cur goalFL Hm)
    as [Hnew [_ [Hstep [Hgap Hbet]]]].
  fold delta in Hnew, Hstep, Hgap, Hbet.
  change (slewFocalLength (Finite r) d cur goalFL) with new
    in Hnew, Hstep, Hgap, Hbet.
  split; [exact Hnew |]. split; [exact Hstep |].
  split; [rewrite Hstep; apply Rmin_l |].
  split; [exact Hgap | exact Hbet].
Qed.

Lemma step_is_rate_limited_witness :
  (0 <= 1 / 10 /\ (0 <= 500000000)%Z)
  /\ newFocalLength (Finite (1 / 10)) 500000000 (PI / 3) wideCamera
     = 1 + 5 / 100
  /\ Rabs (newFocalLength (Finite (1 / 10)) 500000000 (PI / 3) wideCamera
           - curFocalLength wideCamera) <= 5 / 100.
Proof.
  assert (Hr : 0 <= 1 / 10) by lra.
  assert (Hd : (0 <= 500000000)%Z) by lia.
  split; [split; assumption |].
  destruct (step_is_rate_limited (1 / 10) 500000000 (PI / 3) wideCamera Hr Hd)
    as [Hnew [_ [Hle _]]].
  rewrite wide_goalFocalLength in Hnew.
  change (curFocalLength wideCamera) with 1 in Hnew.
  assert (Hs : 1 / 10 * seconds 500000000 = 5 / 100)
    by (unfold seconds; lra).
  rewrite Hs in Hnew, Hle.
  split; [| exact Hle].
  rewrite Hnew.
  destruct (Rgt_dec 3 1) as [| Hn]; [| exfalso; apply Hn; lra].
  rewrite (Rabs_left (1 - 3)) by lra.
  rewrite Rmin_left by lra. reflexivity.
Defined.

(** X15.  A negative slew rate is not rejected: with a finite negative
    rate and a positive step duration the new focal length is the
    current one moved away from the goal focal length by the full
    magnitude of [slewRate * dt]. *)
Theorem negative_rate_moves_away
  (r : R) (d : Z) (goal : R) (c : SdfCamera) :
  r < 0 -> (0 < d)%Z ->
  let cur := curFocalLength c in
  let goalFL := goalFocalLength goal c in
  let new := newFocalLength (Finite r) d goal c in
  Rabs (new - cur) = - (r * seconds d)
  /\ Rabs (goalFL - new) = Rabs (goalFL - cur) + - (r * seconds d)
  /\ Rabs (goalFL - cur) < Rabs (goalFL - new).
Proof.
  intros Hr Hd cur goalFL new.
  pose proof (seconds_pos d Hd) as Hs.
  assert (Hm : r * seconds d < 0) by nra.
  unfold new, newFocalLength. fold cur goalFL.
  unfold slewFocalLength, min, abs.
  set (m := r * seconds d) in *.
  pose proof (Rabs_pos (cur - goalFL)) as Hp.
  destruct (Rlt_dec (Rabs (cur - goalFL)) m) as [Hlt | _]; [lra |].
  destruct (Rgt_dec goalFL cur) as [Hgt | Hle].
  - replace (cur + m - cur) with m by ring.
    replace (goalFL - (cur + m)) with (goalFL - cur - m) by ring.
    rewrite (Rabs_left m) by lra.
    rewrite (Rabs_pos_eq (goalFL - cur - m)) by lra.
    rewrite (Rabs_pos_eq (goalFL - cur)) by lra.
    repeat split; lra.
  - replace (cur - m - cur) with (- m) by ring.
    replace (goalFL - (cur - m)) with (goalFL - cur + m) by ring.
    rewrite (Rabs_pos_eq (- m)) by lra.
    rewrite (Rabs_left (goalFL - cur + m)) by lra.
    rewrite (Rabs_left1 (goalFL - cur)) by lra.
    repeat split; lra.
Qed.

Lemma negative_rate_moves_away_witness :
  (-1 < 0 /\ (0 < 500000000)%Z)
  /\ Rabs (newFocalLength (Finite (-1)) 500000000 1 exampleCamera
           - curFocalLength exampleCamera) = 1 / 2.
Proof.
  assert (Hr : -1 < 0) by lra.
  assert (Hd : (0 < 500000000)%Z) by lia.
  split; [split; assumption |].
  destruct (negative_rate_moves_away (-1) 500000000 1 exampleCamera Hr Hd)
    as [H _].
  rewrite H. unfold seconds. lra.
Defined.

(** X16.  A finite rate that covers the whole distance acts like the
    infinite one: when [slewRate * dt] is at least the distance between
    the current and the goal focal length, the new focal length is the
    goal focal length and the published field of view is the one the
    instant branch publishes. *)
Theorem ample_rate_is_instant
  (r : R) (d : Z) (goal : R) (c : SdfCamera) :
  Rabs (curFocalLength c - goalFocalLength goal c) <= r * seconds d ->
  newFocalLength (Finite r) d goal c = goalFocalLength goal c
  /\ newFocalLength (Finite r) d goal c = newFocalLength NonFinite d goal c
  /\ newHfov (Finite r) d goal c = newHfov NonFinite d goal c.
Proof.
  intros Hle.
  assert (Hnew : newFocalLength (Finite r) d goal c = goalFocalLength goal c).
  { unfold newFocalLength, slewFocalLength, min, abs.
    set (cur := curFocalLength c) in *.
    set (goalFL := goalFocalLength goal c) in *.
    set (m := r * seconds d) in *.
    assert (Ha : (goalFL <= cur /\ Rabs (cur - goalFL) = cur - goalFL)
                 \/ (cur < goalFL /\ Rabs (cur - goalFL) = goalFL - cur)).
    { unfold Rabs. destruct (Rcase_abs (cur - goalFL)); [right | left]; lra. }
    destruct Ha as [[Ho Ha] | [Ho Ha]]; rewrite Ha in *;
      destruct (Rlt_dec _ m); destruct (Rgt_dec goalFL cur); lra. }
  split; [exact Hnew |]. split; [exact Hnew |].
  unfold newHfov. now rewrite Hnew.
Qed.

Lemma ample_rate_is_instant_witness :
  Rabs (curFocalLength wideCamera - goalFocalLength (PI / 3) wideCamera)
  <= 2 * seconds 1000000000
  /\ Rabs (curFocalLength wideCamera - goalFocalLength (PI / 3) wideCamera)
     = 2
  /\ goalAchieved (PI / 3) wideCamera = false
  /\ newFocalLength (Finite 2) 1000000000 (PI / 3) wideCamera = 3
  /\ newHfov (Finite 2) 1000000000 (PI / 3) wideCamera
     = newHfov NonFinite 1000000000 (PI / 3) wideCamera.
Proof.
  assert (Hd : Rabs (curFocalLength wideCamera
                     - goalFocalLength (PI / 3) wideCamera) = 2).
  { rewrite wide_goalFocalLength.
    change (curFocalLength wideCamera) with 1.
    rewrite (Rabs_left (1 - 3)) by lra. lra. }
  assert (H : Rabs (curFocalLength wideCamera
                    - goalFocalLength (PI / 3) wideCamera)
              <= 2 * seconds 1000000000).
  { rewrite Hd. unfold seconds. lra. }
  split; [exact H |]. split; [exact Hd |].
  split; [exact wide_off_goal |].
  destruct (ample_rate_is_instant 2 1000000000 (PI / 3) wideCamera H)
    as [Hnew [_ Hfov]].
  split; [| exact Hfov].
  rewrite Hnew. exact wide_goalFocalLength.
Defined.

(** ** The optics conversions as functions *)

(** X18.  For a positive sensor width, a longer focal length gives a
    narrower field of view, every positive focal length gives a field
    of view in (0, PI), and a wider field of view in (0, PI) asks for a
    shorter focal length. *)
Theorem optics_are_monotone (w f1 f2 a b : R) :
  0 < w -> 0 < f1 < f2 -> 0 < a < b -> b < PI ->
  FocalLengthToFov w f2 < FocalLengthToFov w f1
  /\ 0 < FocalLengthToFov w f2
  /\ FocalLengthToFov w f1 < PI
  /\ 0 < FovToFocalLength w b < FovToFocalLength w a.
Proof.
  intros Hw [Hf1 Hf12] [Ha Hab] Hb.
  rewrite !FocalLengthToFov_pos by lra.
  assert (Hx2 : 0 < w / (2 * f2)) by (apply Rdiv_lt_0_compat; lra).
  assert (Hlt : w / (2 * f2) < w / (2 * f1)).
  { unfold Rdiv. apply Rmult_lt_compat_l; [exact Hw |].
    apply Rinv_lt_contravar; [nra | lra]. }
  pose proof (atan_increasing _ _ Hlt) as Hat.
  pose proof (atan_pos _ Hx2) as Hp.
  pose proof (atan_bound (w / (2 * f1))) as [_ Hub].
  assert (HA : 0 < a < PI) by lra. assert (HB : 0 < b < PI) by lra.
  pose proof (tan_half_pos a HA) as Hta.
  pose proof (tan_half_lt a b HA HB Hab) as Htab.
  unfold FovToFocalLength.
  repeat split; try lra.
  - apply Rdiv_lt_0_compat; lra.
  - unfold Rdiv. apply Rmult_lt_compat_l; [exact Hw |].
    apply Rinv_lt_contravar; [nra | lra].
Qed.

Lemma optics_are_monotone_witness :
  (0 < 1 /\ 0 < 1 < 2 /\ 0 < 1 < 2 /\ 2 < PI)
  /\ FocalLengthToFov 1 2 < FocalLengthToFov 1 1
  /\ FovToFocalLength 1 2 < FovToFocalLength 1 1.
Proof.
  assert (H2 : 2 < PI) by exact two_lt_PI.
  assert (H1 : 0 < 1 < 2) by lra.
  split; [repeat split; lra |].
  destruct (optics_are_monotone 1 1 2 1 2 Rlt_0_1 H1 H1 H2)
    as [Hf [_ [_ [_ Hl]]]].
  split; [exact Hf | exact Hl].
Defined.

(** X19.  On a lens with positive focal length and fields of view in
    (0, PI), the step lengthens the focal length exactly when the goal
    is narrower than the current field of view: the goal focal length
    is the current one times tan(hfov/2) / tan(goal/2), above the
    current one if and only if the goal is below the current field of
    view, and equal to it if and only if they are equal. *)
Theorem zoom_in_lengthens_focal_length (goal : R) (c : SdfCamera) :
  0 < LensFocalLength c -> 0 < HorizontalFov c < PI -> 0 < goal < PI ->
  goalFocalLength goal c
  = curFocalLength c * tan (HorizontalFov c / 2) / tan (goal / 2)
  /\ (goalFocalLength goal c > curFocalLength c <-> goal < HorizontalFov c)
  /\ (goalFocalLength goal c = curFocalLength c <-> goal = HorizontalFov c).
Proof.
  intros Hf Hh Hg. destruct c as [h f]. simpl in *.
  pose proof (lens_goalFocalLength f goal h Hg) as Hgf.
  unfold curFocalLength. simpl. rewrite Hgf.
  pose proof (tan_half_pos goal Hg) as HT.
  pose proof (tan_half_pos h Hh) as Ht.
  set (t := tan (h / 2)) in *. set (T := tan (goal / 2)) in *.
  assert (Hgt : f * t / T > f <-> T < t).
  { split; intros H.
    - apply (Rmult_lt_compat_r T) in H; [| exact HT].
      replace (f * t / T * T) with (f * t) in H by (field; lra). nra.
    - apply (Rmult_lt_reg_r T); [exact HT |].
      replace (f * t / T * T) with (f * t) by (field; lra). nra. }
  assert (Heq : f * t / T = f <-> T = t).
  { split; intros H.
    - apply (Rmult_eq_compat_r T) in H.
      replace (f * t / T * T) with (f * t) in H by (field; lra). nra.
    - subst T. rewrite <- H. field. lra. }
  split; [reflexivity |]. split.
  - rewrite Hgt. split; intros H.
    + destruct (Rlt_le_dec goal h) as [Hlt | Hle]; [exact Hlt |].
      pose proof (tan_half_le h goal Hh Hg Hle). fold t T in H0. lra.
    + apply tan_half_lt; assumption.
  - rewrite Heq. split; intros H.
    + assert (E : goal / 2 = h / 2) by (apply tan_inj; [lra | lra | exact H]).
      lra.
    + unfold T, t. now rewrite H.
Qed.

Lemma zoom_in_lengthens_focal_length_witness :
  (0 < LensFocalLength exampleCamera /\ 0 < HorizontalFov exampleCamera < PI
   /\ 0 < 1 < PI)
  /\ goalFocalLength 1 exampleCamera > curFocalLength exampleCamera.
Proof.
  pose proof exampleCamera_lens as [Hf Hh].
  assert (H1 : 0 < 1 < PI) by (pose proof two_lt_PI; lra).
  split; [repeat split; assumption || lra |].
  apply (proj1 (proj2 (zoom_in_lengthens_focal_length 1 exampleCamera
                         Hf Hh H1))).
  unfold exampleCamera. simpl. lra.
Defined.

(** ** What a step does not consult *)

(** X20.  The renderer is consulted only to acquire the camera, and the
    step duration only by the finite branch: a step of a plugin that
    holds a camera, or is not configured, does not depend on the
    renderer, and a step with a slew rate that is not finite does not
    depend on the step duration. *)
Theorem step_ignores_renderer_and_duration
  (info info' : UpdateInfo) (r r' : Rendering)
  (i : Impl) (ecm : EntityComponentManager) :
  (camera i <> None \/ isValidConfig i = false ->
   PreUpdate info r i ecm = PreUpdate info r' i ecm)
  /\ (slewRate i = NonFinite ->
      PreUpdate info r i ecm = PreUpdate info' r i ecm).
Proof.
  split.
  - intros H. unfold PreUpdate.
    destruct (isValidConfig i); simpl; [| reflexivity].
    destruct (camera i); [reflexivity |].
    destruct H as [H | H]; [contradiction | discriminate].
  - intros Hs. unfold PreUpdate.
    pose proof (resolveGoal_frame i) as [_ [_ [_ [_ [Hsl _]]]]].
    destruct (isValidConfig i); simpl; [| reflexivity].
    destruct (camera i); [| reflexivity].
    destruct (CameraComponent ecm) as [sensor |]; [| reflexivity].
    destruct (resolveGoal i) as [i1 log1]. simpl in Hsl.
    destruct (CameraSensor sensor) as [cameraSdf |]; [| reflexivity].
    destruct (goalAchieved (goalHfov i1) cameraSdf); [reflexivity |].
    rewrite Hsl, Hs. reflexivity.
Qed.

Lemma step_ignores_renderer_and_duration_witness :
  (camera (commandedImpl None 2) <> None
   /\ slewRate (commandedImpl None 2) = NonFinite)
  /\ PreUpdate zeroDuration pendingRendering (commandedImpl None 2)
       (ecmOf exampleCamera)
     = PreUpdate halfSecond exampleRendering (commandedImpl None 2)
         (ecmOf exampleCamera).
Proof.
  assert (Hc : camera (commandedImpl None 2) <> None) by discriminate.
  split; [split; [exact Hc | reflexivity] |].
  rewrite (proj1 (step_ignores_renderer_and_duration zeroDuration zeroDuration
                    pendingRendering exampleRendering (commandedImpl None 2)
                    (ecmOf exampleCamera)) (or_introl Hc)).
  exact (proj2 (step_ignores_renderer_and_duration zeroDuration halfSecond
                  exampleRendering exampleRendering (commandedImpl None 2)
                  (ecmOf exampleCamera)) eq_refl).
Defined.

(** ** The optics domain is never left *)

Lemma wellBehaved_maxZoom (e : event) : wellBehaved e -> maxZoomAtLeastOne e.
Proof.
  destruct e as [cfg | | | |]; simpl; try tauto.
Qed.

Lemma step_rateNotNegative (e : event) (i : Impl)
  (ecm : EntityComponentManager) :
  wellBehaved e -> rateNotNegative (slewRate i) ->
  rateNotNegative (slewRate (fst (fst (step e (i, ecm))))).
Proof.
  intros He Hr. destruct e as [cfg | info rend | name | z |].
  - rewrite step_configure. cbn [fst].
    destruct (Configure_outcome cfg i) as [[_ [Hi _]] | [_ Hcfg]].
    + now rewrite Hi.
    + rewrite Hcfg. simpl in *. destruct He as [_ He].
      destruct (sdf_slew_rate cfg), (sdf_max_zoom cfg); simpl; assumption.
  - rewrite step_preupdate. cbn [fst].
    pose proof (PreUpdate_frame info rend i ecm) as [[_ [_ [_ [_ [Hs _]]]]] _].
    cbv zeta in Hs. now rewrite Hs.
  - rewrite step_postupdate. cbn [fst].
    pose proof (PostUpdate_frame name i) as [_ [_ [_ [_ [_ [Hs _]]]]]].
    now rewrite Hs.
  - rewrite step_zoom. exact Hr.
  - rewrite step_teardown. exact Hr.
Qed.

Lemma PreUpdate_lensValid (info : UpdateInfo) (r : Rendering)
  (i : Impl) (ecm : EntityComponentManager) :
  goalValid i -> rateNotNegative (slewRate i) -> (0 <= dt info)%Z ->
  (forall c, cameraOf ecm = Some c -> lensValid c) ->
  forall c', cameraOf (snd (fst (PreUpdate info r i ecm))) = Some c' ->
             lensValid c'.
Proof.
  intros [Hrf [Hmax Hg]] Hrate Hd Hlens c' Hc'.
  destruct (PreUpdate_cases info r i ecm)
    as [[_ H] | [[_ [_ H]] | [[_ [_ [_ H]]] | [H | H]]]].
  - rewrite H in Hc'. now apply Hlens.
  - rewrite H in Hc'. now apply Hlens.
  - rewrite H in Hc'. now apply Hlens.
  - destruct H as [_ [_ [_ [_ H]]]]. rewrite H in Hc'. now apply Hlens.
  - destruct H as [cam [c [_ [_ [He H]]]]]. rewrite H in Hc'.
    unfold activeStep in Hc'.
    destruct (Hlens c He) as [Hf Hh].
    assert (Hgoal : 0 < goalHfov (fst (resolveGoal i)) < PI).
    { pose proof (resolveGoal_bounds i) as Hb. rewrite Hrf in Hb.
      pose proof two_lt_PI.
      destruct (Hb ltac:(lra) Hmax Hg). lra. }
    pose proof (resolveGoal_frame i) as [_ [_ [_ [_ [Hsl _]]]]].
    destruct (goalAchieved _ c); cbn [fst snd] in Hc'.
    + apply Hlens. exact Hc'.
    + injection Hc' as <-. split; [exact Hf |]. simpl.
      rewrite Hsl. destruct c as [h f]. simpl in *.
      destruct (slewRate i) as [rate |].
      * apply lens_newHfov_range; try assumption.
        apply Rmult_le_pos; [exact Hrate | now apply seconds_nonneg].
      * rewrite instant_newHfov by assumption. exact Hgoal.
Qed.

(** X21.  The plugin never takes a camera out of the domain of the
    optics conversions: from construction, over any sequence of events
    in which no [Configure] sets a maximum zoom below 1 or a negative
    slew rate, no step has a negative duration and every command is a
    number (an [EvZoom] carries a real; a command that is NaN is not
    covered), whatever numbers are commanded, a camera with positive
    focal length and a field of view in (0, PI) still has both. *)
Theorem lens_stays_valid (es : list event) (ecm : EntityComponentManager) :
  Forall wellBehaved es ->
  (forall c, cameraOf ecm = Some c -> lensValid c) ->
  forall c', cameraAfter es (Impl_default, ecm) = Some c' -> lensValid c'.
Proof.
  intros Hall Hlens. unfold cameraAfter.
  assert (Hv : goalValid Impl_default).
  { unfold goalValid. simpl. lra. }
  assert (Hr : rateNotNegative (slewRate Impl_default)) by exact I.
  revert Hv Hr Hlens. generalize Impl_default as i. revert ecm.
  induction Hall as [| e es He Hall IH]; intros ecm i Hv Hr Hlens c' Hc'.
  - apply Hlens. exact Hc'.
  - rewrite run_cons in Hc'. cbn [fst snd] in Hc'.
    pose proof (step_goalValid e i ecm (wellBehaved_maxZoom e He) Hv) as Hv1.
    pose proof (step_rateNotNegative e i ecm He Hr) as Hr1.
    assert (Hl1 : forall c, cameraOf (snd (fst (step e (i, ecm)))) = Some c ->
                            lensValid c).
    { destruct e as [cfg | info rend | name | z |].
      - rewrite step_configure. exact Hlens.
      - rewrite step_preupdate. cbn [fst snd].
        now apply PreUpdate_lensValid.
      - rewrite step_postupdate. exact Hlens.
      - rewrite step_zoom. exact Hlens.
      - rewrite step_teardown. exact Hlens. }
    destruct (step e (i, ecm)) as [[i1 ecm1] log1]. cbn [fst snd] in *.
    exact (IH ecm1 i1 Hv1 Hr1 Hl1 c' Hc').
Qed.

Lemma lens_stays_valid_witness :
  (Forall wellBehaved
     (startup (Some (Finite (1 / 10)))
      ++ [EvZoom 1000; EvPreUpdate halfSecond exampleRendering;
          EvZoom 0; EvPreUpdate halfSecond exampleRendering])
   /\ (forall c, cameraOf (ecmOf exampleCamera) = Some c -> lensValid c))
  /\ exists c',
       cameraAfter
         (startup (Some (Finite (1 / 10)))
          ++ [EvZoom 1000; EvPreUpdate halfSecond exampleRendering;
              EvZoom 0; EvPreUpdate halfSecond exampleRendering])
         (Impl_default, ecmOf exampleCamera) = Some c'
       /\ lensValid c'.
Proof.
  assert (Hall : Forall wellBehaved
                   (startup (Some (Finite (1 / 10)))
                    ++ [EvZoom 1000; EvPreUpdate halfSecond exampleRendering;
                        EvZoom 0; EvPreUpdate halfSecond exampleRendering])).
  { repeat constructor; simpl; try lra; try lia. }
  assert (Hlens : forall c, cameraOf (ecmOf exampleCamera) = Some c ->
                            lensValid c).
  { intros c H. injection H as <-. exact exampleCamera_lens. }
  split; [split; assumption |].
  destruct (proj1 (run_keeps_camera
                     (startup (Some (Finite (1 / 10)))
                      ++ [EvZoom 1000; EvPreUpdate halfSecond exampleRendering;
                          EvZoom 0; EvPreUpdate halfSecond exampleRendering])
                     (Impl_default, ecmOf exampleCamera))
              exampleCamera eq_refl) as [c' [Hc' _]].
  exists c'. split; [exact Hc' |].
  exact (lens_stays_valid _ (ecmOf exampleCamera) Hall Hlens c' Hc').
Defined.

(** ** The sensor width from one step to the next *)

(** X22.  The sensor width is not constant from step to step: the step
    writes the new field of view and leaves the focal length, so the
    sensor width that the next step derives from the camera is the
    present one scaled by current over new focal length, and it equals
    the present one only if the focal length did not move. *)
Theorem sensor_width_drifts
  (rate : xdouble) (d : Z) (goal : R) (c : SdfCamera) :
  0 < newFocalLength rate d goal c ->
  let c' := SetHorizontalFov c (newHfov rate d goal c) in
  sensorWidth c'
  = sensorWidth c * curFocalLength c / newFocalLength rate d goal c
  /\ (sensorWidth c <> 0 -> sensorWidth c' = sensorWidth c ->
      newFocalLength rate d goal c = curFocalLength c).
Proof.
  intros Hn c'.
  assert (Hw : sensorWidth c'
               = sensorWidth c * curFocalLength c
                 / newFocalLength rate d goal c).
  { unfold c', sensorWidth at 1, SensorWidth, oldHfov, curFocalLength.
    simpl. unfold newHfov.
    rewrite FocalLengthToFov_pos by exact Hn.
    replace (2 * atan (sensorWidth c / (2 * newFocalLength rate d goal c)) / 2)
      with (atan (sensorWidth c / (2 * newFocalLength rate d goal c)))
      by lra.
    rewrite tan_atan. field. lra. }
  split; [exact Hw |].
  intros Hne Heq. rewrite Heq in Hw.
  set (w := sensorWidth c) in *. set (new := newFocalLength rate d goal c) in *.
  set (cur := curFocalLength c) in *.
  assert (Hmul : w * new = w * cur).
  { apply (Rmult_eq_compat_r new) in Hw.
    replace (w * cur / new * new) with (w * cur) in Hw by (field; lra).
    exact Hw. }
  apply (Rmult_eq_reg_l w); assumption.
Qed.

Lemma sensor_width_drifts_witness :
  0 < newFocalLength NonFinite 0 1 exampleCamera
  /\ sensorWidth (SetHorizontalFov exampleCamera
                    (newHfov NonFinite 0 1 exampleCamera))
     = sensorWidth exampleCamera * curFocalLength exampleCamera
       / newFocalLength NonFinite 0 1 exampleCamera.
Proof.
  assert (H1 : 0 < 1 < PI) by (pose proof two_lt_PI; lra).
  assert (H2 : 0 < 2 < PI) by (pose proof two_lt_PI; lra).
  assert (Hn : 0 < newFocalLength NonFinite 0 1 exampleCamera)
    by exact (lens_goalFocalLength_pos 1 1 2 Rlt_0_1 H1 H2).
  split; [exact Hn |].
  exact (proj1 (sensor_width_drifts NonFinite 0 1 exampleCamera Hn)).
Defined.

(** ** Commands outside the zoom range *)

(** X23.  Commands outside the zoom range saturate: on a step that
    detects a command change, with a maximum zoom of at least 1, a
    command of 1 or less (zero and negative values included) sets the
    goal to the reference field of view, and a command of the maximum
    zoom or more sets it to the reference divided by the maximum zoom;
    the divisor is never below 1. *)
Theorem out_of_range_commands_saturate
  (info : UpdateInfo) (r : Rendering) (i : Impl)
  (ecm : EntityComponentManager) :
  commandDetected i ecm = true -> 1 <= maxZoom i ->
  let goal := goalHfov (fst (fst (PreUpdate info r i ecm))) in
  (zoomCommand i <= 1 -> goal = refHfov i)
  /\ (maxZoom i <= zoomCommand i -> goal = refHfov i / maxZoom i)
  /\ (1 <= zoomCommand i <= maxZoom i -> goal = refHfov i / zoomCommand i).
Proof.
  intros Hd Hmax goal.
  destruct (commandDetected_true i ecm Hd) as [Hv [Hc [Hs Hz]]].
  pose proof (PreUpdate_resolves info r i ecm Hv Hc Hs) as [Hi _].
  unfold goal. rewrite Hi, resolveGoal_goal, Hz.
  unfold clamp, minZoom. repeat split; intros H.
  - destruct (Rlt_dec (zoomCommand i) 1); [field |].
    destruct (Rlt_dec (maxZoom i) (zoomCommand i)); [lra |].
    replace (zoomCommand i) with 1 by lra. field.
  - destruct (Rlt_dec (zoomCommand i) 1); [lra |].
    destruct (Rlt_dec (maxZoom i) (zoomCommand i)); [reflexivity |].
    replace (zoomCommand i) with (maxZoom i) by lra. reflexivity.
  - destruct (Rlt_dec (zoomCommand i) 1); [lra |].
    destruct (Rlt_dec (maxZoom i) (zoomCommand i)); [lra | reflexivity].
Qed.

Lemma out_of_range_commands_saturate_witness :
  (commandDetected (commandedImpl None 0) (ecmOf exampleCamera) = true
   /\ 1 <= maxZoom (commandedImpl None 0))
  /\ goalHfov (fst (fst (PreUpdate exampleInfo exampleRendering
                           (commandedImpl None 0) (ecmOf exampleCamera))))
     = 2.
Proof.
  assert (Hmax : 1 <= maxZoom (commandedImpl None 0)) by (simpl; lra).
  split; [split; [reflexivity | exact Hmax] |].
  destruct (out_of_range_commands_saturate exampleInfo exampleRendering
              (commandedImpl None 0) (ecmOf exampleCamera) eq_refl Hmax)
    as [Hlow _].
  apply Hlow. simpl. lra.
Defined.
